(** * Job application portal: session store and application-form validator

    A shallow embedding of [AuthContext.tsx] (reducer, startup restore,
    login, logout, [useAuth]) and of the validation logic of
    [JobApplicationForm.tsx] ([validateForm], [handleInputChange]).

    Conventions.
    - A JavaScript string is a [string]: the sequence of its code units,
      each below 256.
    - A JavaScript object used as a dictionary is a [gmap string _].
    - [undefined] / [null] in an optional position is [None].
    - Code that can throw returns a [Completion]. *)

From Stdlib Require Import ZArith Ascii String.
From stdpp Require Import base option list strings gmap pretty.

Local Open Scope string_scope.
Set Warnings "-register-all".

(** ** ECMAScript built-ins used by the sources *)

Module JS.

(** *** Code units and character classes *)

Definition code (c : ascii) : N := N_of_ascii c.

(** [WhiteSpace] and [LineTerminator] code units below 256:
    TAB, LF, VT, FF, CR, SP, NBSP.  This is the set matched by [\s]
    and stripped by [trim] and [parseInt]. *)
Definition is_space (c : ascii) : bool :=
  let n := code c in
  ((9 <=? n) && (n <=? 13) || (n =? 32) || (n =? 160))%N.

(** [\d], [[0-9]] *)
Definition is_digit (c : ascii) : bool :=
  let n := code c in ((48 <=? n) && (n <=? 57))%N.

(** [[a-zA-Z]] *)
Definition is_alpha (c : ascii) : bool :=
  let n := code c in
  ((65 <=? n) && (n <=? 90) || (97 <=? n) && (n <=? 122))%N.

(** *** Strings *)

(** ToBoolean on a string: the empty string is the only falsy one. *)
Definition truthy (s : string) : bool :=
  match s with EmptyString => false | String _ _ => true end.

Fixpoint trimStart (s : string) : string :=
  match s with
  | EmptyString => EmptyString
  | String c r => if is_space c then trimStart r else s
  end.

Fixpoint trimEnd (s : string) : string :=
  match s with
  | EmptyString => EmptyString
  | String c r =>
      match trimEnd r with
      | EmptyString => if is_space c then EmptyString else String c EmptyString
      | r' => String c r'
      end
  end.

(** [String.prototype.trim] *)
Definition trim (s : string) : string := trimEnd (trimStart s).

(** [s.replace(/[cls]/g, '')] for a one-character class [cls]:
    every code unit in the class is deleted. *)
Fixpoint remove_class (cls : ascii → bool) (s : string) : string :=
  match s with
  | EmptyString => EmptyString
  | String c r =>
      if cls c then remove_class cls r else String c (remove_class cls r)
  end.

(** [s.slice(0, n)] for a natural [n] *)
Fixpoint slice0 (n : nat) (s : string) : string :=
  match n, s with
  | S k, String c r => String c (slice0 k r)
  | _, _ => EmptyString
  end.

Fixpoint all_chars (p : ascii → bool) (s : string) : bool :=
  match s with
  | EmptyString => true
  | String c r => p c && all_chars p r
  end.

(** *** parseInt(string) with the radix omitted

    The result is [None] for NaN and otherwise the mathematical integer
    denoted by the digit prefix.  The rounding of that integer to a
    Number keeps its sign and never produces NaN, which is all the
    callers observe. *)

Definition digit_value (c : ascii) : option Z :=
  let n := Z.of_N (code c) in
  if is_digit c then Some (n - 48)%Z
  else if ((97 <=? n) && (n <=? 102))%Z then Some (n - 87)%Z
  else if ((65 <=? n) && (n <=? 70))%Z then Some (n - 55)%Z
  else None.

Definition radix_digit (R : Z) (c : ascii) : option Z :=
  match digit_value c with
  | Some d => if (d <? R)%Z then Some d else None
  | None => None
  end.

(** Longest prefix of radix-[R] digits, accumulated left to right;
    [None] when the prefix is empty. *)
Fixpoint digits_prefix (R : Z) (acc : option Z) (s : string) : option Z :=
  match s with
  | EmptyString => acc
  | String c r =>
      match radix_digit R c with
      | Some d => digits_prefix R (Some (default 0%Z acc * R + d)%Z) r
      | None => acc
      end
  end.

Definition strip_sign (s : string) : Z * string :=
  match s with
  | String "-" r => ((-1)%Z, r)
  | String "+" r => (1%Z, r)
  | _ => (1%Z, s)
  end.

Definition strip_hex_prefix (s : string) : Z * string :=
  match s with
  | String "0" (String "x" r) => (16%Z, r)
  | String "0" (String "X" r) => (16%Z, r)
  | _ => (10%Z, s)
  end.

Definition parseInt (input : string) : option Z :=
  let '(sign, S1) := strip_sign (trimStart input) in
  let '(R, S2) := strip_hex_prefix S1 in
  match digits_prefix R None S2 with
  | None => None
  | Some mathInt => Some (sign * mathInt)%Z
  end.

(** [x < 0] and [isNaN(x)] on a [parseInt] result *)
Definition lt0 (x : option Z) : bool :=
  match x with Some n => (n <? 0)%Z | None => false end.

Definition isNaN (x : option Z) : bool :=
  match x with Some _ => false | None => true end.

End JS.

Import JS.

(** ** Regular expressions

    The three patterns of the form are anchored ([^...$]), have no flags,
    no groups and no back-references, so [RegExp.prototype.test] decides
    membership of the whole string in a regular language.  The matcher
    below decides it with derivatives. *)

Module RegExp.

Inductive regex : Type :=
| Void
| Eps
| Class (p : ascii → bool)
| Cat (r1 r2 : regex)
| Alt (r1 r2 : regex)
| Star (r : regex).

Fixpoint nullable (r : regex) : bool :=
  match r with
  | Void => false
  | Eps => true
  | Class _ => false
  | Cat r1 r2 => nullable r1 && nullable r2
  | Alt r1 r2 => nullable r1 || nullable r2
  | Star _ => true
  end.

Fixpoint deriv (c : ascii) (r : regex) : regex :=
  match r with
  | Void => Void
  | Eps => Void
  | Class p => if p c then Eps else Void
  | Cat r1 r2 =>
      if nullable r1 then Alt (Cat (deriv c r1) r2) (deriv c r2)
      else Cat (deriv c r1) r2
  | Alt r1 r2 => Alt (deriv c r1) (deriv c r2)
  | Star r1 => Cat (deriv c r1) (Star r1)
  end.

(** [/^r$/.test(s)] *)
Fixpoint test (r : regex) (s : string) : bool :=
  match s with
  | EmptyString => nullable r
  | String c s' => test (deriv c r) s'
  end.

(** [r+] *)
Definition plus (r : regex) : regex := Cat r (Star r).

(** [r{n}] *)
Fixpoint rep (n : nat) (r : regex) : regex :=
  match n with
  | O => Eps
  | S k => Cat r (rep k r)
  end.

(** a literal character *)
Definition chr (a : ascii) : regex := Class (Ascii.eqb a).

End RegExp.

(** ** JSON

    Values obtainable from [JSON.parse].  A Number is carried as its
    source lexeme (its IEEE-754 value is not interpreted); a String is the
    list of its code units, which may exceed 255 after a [\u] escape; an
    Object is its member list in source order. *)

Module JSON.

Inductive json : Type :=
| JNull
| JBool (b : bool)
| JNum (lexeme : string)
| JStr (units : list N)
| JArr (elements : list json)
| JObj (members : list (list N * json)).

Definition dquote : ascii := ascii_of_nat 34.
Definition backslash : ascii := ascii_of_nat 92.

Definition code_units (s : string) : list N :=
  code <$> list_ascii_of_string s.

(** JSON white space: SP, TAB, LF, CR *)
Definition is_json_ws (c : ascii) : bool :=
  let n := code c in ((n =? 32) || (n =? 9) || (n =? 10) || (n =? 13))%N.

Fixpoint skip_ws (s : string) : string :=
  match s with
  | String c r => if is_json_ws c then skip_ws r else s
  | EmptyString => EmptyString
  end.

(** [expect w s] strips the literal word [w] from the front of [s]. *)
Fixpoint expect (w s : string) : option string :=
  match w, s with
  | EmptyString, _ => Some s
  | String a w', String b s' => if Ascii.eqb a b then expect w' s' else None
  | String _ _, EmptyString => None
  end.

(** Longest prefix of decimal digits and the rest. *)
Fixpoint span_digits (s : string) : string * string :=
  match s with
  | String c r =>
      if is_digit c then let '(d, r') := span_digits r in (String c d, r')
      else (EmptyString, s)
  | EmptyString => (EmptyString, EmptyString)
  end.

(** int: [0] or a non-zero digit followed by digits *)
Definition parse_int_part (s : string) : option (string * string) :=
  match s with
  | String "0" r => Some ("0", r)
  | String c r =>
      if is_digit c then let '(d, r') := span_digits r in Some (String c d, r')
      else None
  | EmptyString => None
  end.

(** frac: optional [.] followed by at least one digit *)
Definition parse_frac_part (s : string) : option (string * string) :=
  match s with
  | String "." r =>
      match span_digits r with
      | (EmptyString, _) => None
      | (d, r') => Some (String "." d, r')
      end
  | _ => Some (EmptyString, s)
  end.

Definition nonempty_digits (pre s : string) : option (string * string) :=
  match span_digits s with
  | (EmptyString, _) => None
  | (d, r') => Some (pre +:+ d, r')
  end.

(** exp: optional [e] or [E], optional sign, at least one digit *)
Definition parse_exp_part (s : string) : option (string * string) :=
  match s with
  | String c r =>
      if Ascii.eqb c "e" || Ascii.eqb c "E" then
        match r with
        | String "+" r' => nonempty_digits (String c "+") r'
        | String "-" r' => nonempty_digits (String c "-") r'
        | _ => nonempty_digits (String c EmptyString) r
        end
      else Some (EmptyString, s)
  | EmptyString => Some (EmptyString, s)
  end.

Definition parse_number (s : string) : option (string * string) :=
  let '(sign, s0) :=
    match s with String "-" r => ("-", r) | _ => (EmptyString, s) end in
  '(i, s1) ← parse_int_part s0;
  '(f, s2) ← parse_frac_part s1;
  '(e, s3) ← parse_exp_part s2;
  Some (sign +:+ i +:+ f +:+ e, s3).

Definition hex_value (c : ascii) : option N :=
  Z.to_N <$> digit_value c.

(** the four hex digits of a [\u] escape *)
Definition parse_hex4 (s : string) : option (N * string) :=
  match s with
  | String a (String b (String c (String d r))) =>
      x3 ← hex_value a; x2 ← hex_value b; x1 ← hex_value c; x0 ← hex_value d;
      Some (((x3 * 16 + x2) * 16 + x1) * 16 + x0, r)%N
  | _ => None
  end.

(** The characters of a string literal after its opening quote, up to and
    including the closing quote. *)
Fixpoint parse_string_body (fuel : nat) (s : string) : option (list N * string) :=
  match fuel with
  | O => None
  | S fuel =>
      match s with
      | EmptyString => None
      | String c r =>
          if Ascii.eqb c dquote then Some ([], r)
          else if Ascii.eqb c backslash then
            match r with
            | String e r' =>
                let simple (u : N) :=
                  '(us, rest) ← parse_string_body fuel r'; Some (u :: us, rest) in
                if Ascii.eqb e dquote then simple 34%N
                else if Ascii.eqb e backslash then simple 92%N
                else if Ascii.eqb e "/" then simple 47%N
                else if Ascii.eqb e "b" then simple 8%N
                else if Ascii.eqb e "f" then simple 12%N
                else if Ascii.eqb e "n" then simple 10%N
                else if Ascii.eqb e "r" then simple 13%N
                else if Ascii.eqb e "t" then simple 9%N
                else if Ascii.eqb e "u" then
                  '(u, r2) ← parse_hex4 r';
                  '(us, rest) ← parse_string_body fuel r2; Some (u :: us, rest)
                else None
            | EmptyString => None
            end
          else if (code c <? 32)%N then None
          else '(us, rest) ← parse_string_body fuel r; Some (code c :: us, rest)
      end
  end.

Definition parse_string (s : string) : option (list N * string) :=
  match s with
  | String c r =>
      if Ascii.eqb c dquote then parse_string_body (S (String.length r)) r
      else None
  | EmptyString => None
  end.

(** What follows an element of an array or a member of an object. *)
Inductive separator : Type := Comma (rest : string) | Close (rest : string).

Definition parse_separator (close : ascii) (s : string) : option separator :=
  match skip_ws s with
  | String c r =>
      if Ascii.eqb c "," then Some (Comma r)
      else if Ascii.eqb c close then Some (Close r)
      else None
  | EmptyString => None
  end.

Fixpoint parse_value (fuel : nat) (s : string) : option (json * string) :=
  match fuel with
  | O => None
  | S fuel =>
      let fix parse_elements (n : nat) (s : string) : option (list json * string) :=
        match n with
        | O => None
        | S n =>
            '(v, s1) ← parse_value fuel s;
            sep ← parse_separator "]" s1;
            match sep with
            | Close r => Some ([v], r)
            | Comma r => '(vs, r') ← parse_elements n r; Some (v :: vs, r')
            end
        end in
      let fix parse_members (n : nat) (s : string)
          : option (list (list N * json) * string) :=
        match n with
        | O => None
        | S n =>
            '(k, s1) ← parse_string (skip_ws s);
            s2 ← expect ":" (skip_ws s1);
            '(v, s3) ← parse_value fuel s2;
            sep ← parse_separator "}" s3;
            match sep with
            | Close r => Some ([(k, v)], r)
            | Comma r => '(kvs, r') ← parse_members n r; Some ((k, v) :: kvs, r')
            end
        end in
      match skip_ws s with
      | EmptyString => None
      | String c r as s' =>
          if Ascii.eqb c "n" then r' ← expect "ull" r; Some (JNull, r')
          else if Ascii.eqb c "t" then r' ← expect "rue" r; Some (JBool true, r')
          else if Ascii.eqb c "f" then r' ← expect "alse" r; Some (JBool false, r')
          else if Ascii.eqb c dquote then
            '(us, r') ← parse_string s'; Some (JStr us, r')
          else if Ascii.eqb c "[" then
            match skip_ws r with
            | String "]" r' => Some (JArr [], r')
            | _ => '(vs, r') ← parse_elements (S (String.length r)) r; Some (JArr vs, r')
            end
          else if Ascii.eqb c "{" then
            match skip_ws r with
            | String "}" r' => Some (JObj [], r')
            | _ => '(kvs, r') ← parse_members (S (String.length r)) r; Some (JObj kvs, r')
            end
          else '(lex, r') ← parse_number s'; Some (JNum lex, r')
      end
  end.

(** [JSON.parse(text)]: [None] stands for the SyntaxError it throws. *)
Definition parse (text : string) : option json :=
  '(v, rest) ← parse_value (S (String.length text)) text;
  match skip_ws rest with
  | EmptyString => Some v
  | String _ _ => None
  end.

End JSON.

(** [JSON.stringify] on the values above.  Code units above 255 (which
    only a [\u] escape can produce) are written back as [\u] escapes. *)

Module Stringify.
Import JSON.

Definition hex_digit (n : N) : ascii :=
  if (n <? 10)%N then ascii_of_N (48 + n) else ascii_of_N (87 + n).

Definition hex4 (u : N) : string :=
  String (hex_digit (u / 4096 mod 16))
    (String (hex_digit (u / 256 mod 16))
       (String (hex_digit (u / 16 mod 16))
          (String (hex_digit (u mod 16)) EmptyString))).

Definition quote_unit (u : N) : string :=
  if (u =? 34)%N then String backslash (String dquote EmptyString)
  else if (u =? 92)%N then String backslash (String backslash EmptyString)
  else if (u =? 8)%N then String backslash "b"
  else if (u =? 12)%N then String backslash "f"
  else if (u =? 10)%N then String backslash "n"
  else if (u =? 13)%N then String backslash "r"
  else if (u =? 9)%N then String backslash "t"
  else if (u <? 32)%N || (255 <? u)%N then String backslash ("u" +:+ hex4 u)
  else String (ascii_of_N u) EmptyString.

Definition quote (us : list N) : string :=
  String dquote (foldr (λ u acc, quote_unit u +:+ acc) (String dquote EmptyString) us).

Fixpoint stringify (v : json) : string :=
  match v with
  | JNull => "null"
  | JBool true => "true"
  | JBool false => "false"
  | JNum lexeme => lexeme
  | JStr us => quote us
  | JArr vs =>
      "[" +:+
      (fix elements (vs : list json) : string :=
         match vs with
         | [] => "]"
         | v :: vs' =>
             stringify v +:+
             match vs' with [] => "]" | _ :: _ => "," +:+ elements vs' end
         end) vs
  | JObj kvs =>
      "{" +:+
      (fix members (kvs : list (list N * json)) : string :=
         match kvs with
         | [] => "}"
         | (k, v) :: kvs' =>
             quote k +:+ ":" +:+ stringify v +:+
             match kvs' with [] => "}" | _ :: _ => "," +:+ members kvs' end
         end) kvs
  end.

End Stringify.

(** ** Session store ([AuthContext.tsx]) *)

Module Auth.
Import JSON.

(** Modelled from the spec: the module [types/auth], which declares the
    provider tag of a [User], is not among the sources.  The tag is one of
    [email] and [google]. *)
Inductive Provider : Type := provider_email | provider_google.

(** Modelled from the spec: the interface [User] of the missing module
    [types/auth]; identity record with id, email, display name, optional
    avatar URL, provider tag and creation timestamp, as the object
    literals of [mockAPI] build it. *)
Record User : Type := {
  id : string;
  email : string;
  name : string;
  avatar : option string;
  provider : Provider;
  createdAt : string;
}.

(** Modelled from the spec: the interface [LoginCredentials] of the
    missing module [types/auth]; [mockAPI.login] reads its [email] and
    [password]. *)
Record LoginCredentials : Type := {
  login_email : string;
  login_password : string;
}.

(** Modelled from the spec: the interface [SignupCredentials] of the
    missing module [types/auth]: email, name and password. *)
Record SignupCredentials : Type := {
  signup_email : string;
  signup_name : string;
  signup_password : string;
}.

(** Modelled from the spec: the interface [AuthResponse] of the missing
    module [types/auth]: the [{user, token}] a backend call answers with. *)
Record AuthResponse : Type := {
  response_user : User;
  response_token : string;
}.

(** The JavaScript object behind a [User]: its properties in the order of
    the object literals; an absent [avatar] is no property at all. *)
Definition property (key value : string) : list N * json :=
  (code_units key, JStr (code_units value)).

Definition user_value (u : User) : json :=
  JObj ([property "id" (id u); property "email" (email u);
         property "name" (name u)]
        ++ match avatar u with
           | Some a => [property "avatar" a]
           | None => []
           end
        ++ [property "provider"
              match provider u with
              | provider_email => "email"
              | provider_google => "google"
              end;
            property "createdAt" (createdAt u)]).

(** Modelled from the spec: the interface [AuthState] of the missing
    module [types/auth], with the four properties of [initialState].
    [user] holds whatever value was dispatched: a [User] object, or
    [JNull] for [null].  [token] is a string or [null]. *)
Record AuthState : Type := {
  user : json;
  token : option string;
  isLoading : bool;
  isAuthenticated : bool;
}.

Inductive AuthAction : Type :=
| SET_LOADING (payload : bool)
| SET_USER (payload_user : json) (payload_token : string)
| CLEAR_USER.

Definition authReducer (state : AuthState) (action : AuthAction) : AuthState :=
  match action with
  | SET_LOADING payload =>
      {| user := user state; token := token state;
         isLoading := payload; isAuthenticated := isAuthenticated state |}
  | SET_USER payload_user payload_token =>
      {| user := payload_user; token := Some payload_token;
         isAuthenticated := true; isLoading := false |}
  | CLEAR_USER =>
      {| user := JNull; token := None;
         isAuthenticated := false; isLoading := false |}
  end.

Definition initialState : AuthState :=
  {| user := JNull; token := None; isLoading := true; isAuthenticated := false |}.

(** *** Effects

    The provider's functions act on the reducer state and on
    [localStorage], call the mock backend and may throw.  [World] holds
    what they can touch; [backend_log] records every call made to
    [mockAPI], latest first.  An operation runs to its end before the next
    one starts: the store is not designed for overlapping operations. *)

Record Error : Type := { message : string }.

Inductive Completion (A : Type) : Type :=
| Normal (a : A)
| Throw (e : Error).
Arguments Normal {A} a.
Arguments Throw {A} e.

Inductive BackendCall : Type :=
| call_login (credentials : LoginCredentials)
| call_signup (credentials : SignupCredentials)
| call_googleLogin.

Record World : Type := {
  state : AuthState;
  localStorage : gmap string string;
  backend_log : list BackendCall;
}.

Definition M (A : Type) : Type := World → Completion A * World.

#[export] Instance M_ret : MRet M := λ A a w, (Normal a, w).

#[export] Instance M_bind : MBind M := λ A B k c w,
  match c w with
  | (Normal a, w') => k a w'
  | (Throw e, w') => (Throw e, w')
  end.

Definition throw {A : Type} (e : Error) : M A := λ w, (Throw e, w).

(** [try { body } catch (error) { handler }] *)
Definition try_catch {A : Type} (body : M A) (handler : Error → M A) : M A :=
  λ w,
    match body w with
    | (Normal a, w') => (Normal a, w')
    | (Throw e, w') => handler e w'
    end.

Definition dispatch (action : AuthAction) : M () := λ w,
  (Normal (),
   {| state := authReducer (state w) action;
      localStorage := localStorage w; backend_log := backend_log w |}).

Definition getItem (key : string) : M (option string) := λ w,
  (Normal (localStorage w !! key), w).

Definition setItem (key value : string) : M () := λ w,
  (Normal (),
   {| state := state w; localStorage := <[key := value]> (localStorage w);
      backend_log := backend_log w |}).

Definition removeItem (key : string) : M () := λ w,
  (Normal (),
   {| state := state w; localStorage := delete key (localStorage w);
      backend_log := backend_log w |}).

Definition record_call (c : BackendCall) : M () := λ w,
  (Normal (),
   {| state := state w; localStorage := localStorage w;
      backend_log := c :: backend_log w |}).

(** [JSON.parse] as a computation: a SyntaxError is thrown on bad input. *)
Definition JSON_parse (text : string) : M json :=
  match JSON.parse text with
  | Some v => mret v
  | None => throw {| message := "SyntaxError" |}
  end.

(** *** The mock backend

    [Date.now()] and [new Date().toISOString()] are inputs: [now] and
    [iso] are the values they return during the call.  The simulated
    delays do not change any of the modelled state. *)

Record DateReading : Type := { now : N; iso : string }.

Definition mockAPI_login (d : DateReading) (credentials : LoginCredentials)
  : M AuthResponse :=
  record_call (call_login credentials);;
  if String.eqb (login_email credentials) "user@example.com"
     && String.eqb (login_password credentials) "password123"
  then
    mret {| response_user :=
              {| id := "1"; email := login_email credentials;
                 name := "John Doe"; avatar := None;
                 provider := provider_email; createdAt := iso d |};
            response_token := "mock-jwt-token-" +:+ pretty (now d) |}
  else throw {| message := "Invalid credentials" |}.

Definition mockAPI_signup (d : DateReading) (credentials : SignupCredentials)
  : M AuthResponse :=
  record_call (call_signup credentials);;
  mret {| response_user :=
            {| id := pretty (now d); email := signup_email credentials;
               name := signup_name credentials; avatar := None;
               provider := provider_email; createdAt := iso d |};
          response_token := "mock-jwt-token-" +:+ pretty (now d) |}.

Definition mockAPI_googleLogin (d : DateReading) : M AuthResponse :=
  record_call call_googleLogin;;
  mret {| response_user :=
            {| id := "google-" +:+ pretty (now d); email := "user@gmail.com";
               name := "Google User";
               avatar := Some "https://images.pexels.com/photos/220453/pexels-photo-220453.jpeg?auto=compress&cs=tinysrgb&w=150&h=150&dpr=1";
               provider := provider_google; createdAt := iso d |};
          response_token := "mock-google-jwt-token-" +:+ pretty (now d) |}.

(** *** [AuthProvider] *)

(** The body of the mount effect ([useEffect(..., [])]). *)
Definition restore : M () :=
  token ← getItem "auth_token";
  userData ← getItem "user_data";
  match token, userData with
  | Some token, Some userData =>
      if truthy token && truthy userData then
        try_catch
          (user ← JSON_parse userData;
           dispatch (SET_USER user token))
          (λ error,
             removeItem "auth_token";;
             removeItem "user_data")
      else mret ()
  | _, _ => mret ()
  end;;
  dispatch (SET_LOADING false).

(** What the three sign-in functions do with a backend response. *)
Definition store_session (response : AuthResponse) : M () :=
  setItem "auth_token" (response_token response);;
  setItem "user_data" (Stringify.stringify (user_value (response_user response)));;
  dispatch (SET_USER (user_value (response_user response)) (response_token response)).

Definition login (d : DateReading) (credentials : LoginCredentials) : M () :=
  dispatch (SET_LOADING true);;
  try_catch
    (response ← mockAPI_login d credentials;
     store_session response)
    (λ error,
       dispatch (SET_LOADING false);;
       throw error).

Definition signup (d : DateReading) (credentials : SignupCredentials) : M () :=
  dispatch (SET_LOADING true);;
  try_catch
    (response ← mockAPI_signup d credentials;
     store_session response)
    (λ error,
       dispatch (SET_LOADING false);;
       throw error).

Definition loginWithGoogle (d : DateReading) : M () :=
  dispatch (SET_LOADING true);;
  try_catch
    (response ← mockAPI_googleLogin d;
     store_session response)
    (λ error,
       dispatch (SET_LOADING false);;
       throw error).

Definition logout : M () :=
  removeItem "auth_token";;
  removeItem "user_data";;
  dispatch CLEAR_USER.

(** *** Context and [useAuth] *)

(** The value [AuthProvider] hands to its [AuthContext.Provider]: the
    reducer state ([...state]) and the four operations. *)
Record AuthContextType : Type := {
  ctx_state : AuthState;
  ctx_login : DateReading → LoginCredentials → M ();
  ctx_signup : DateReading → SignupCredentials → M ();
  ctx_loginWithGoogle : DateReading → M ();
  ctx_logout : M ();
}.

Definition AuthProvider_value (st : AuthState) : AuthContextType :=
  {| ctx_state := st; ctx_login := login; ctx_signup := signup;
     ctx_loginWithGoogle := loginWithGoogle; ctx_logout := logout |}.

(** [useContext(ctx)] at a place of the component tree: [providers] lists
    the values of the enclosing [ctx.Provider] elements, innermost first;
    with none, the default given to [createContext] is returned. *)
Definition useContext {T : Type} (default_value : T) (providers : list T) : T :=
  match providers with
  | [] => default_value
  | v :: _ => v
  end.

(** [createContext<AuthContextType | undefined>(undefined)] *)
Definition AuthContext_default : option AuthContextType := None.

Definition useAuth (providers : list (option AuthContextType))
  : Completion AuthContextType :=
  let context := useContext AuthContext_default providers in
  match context with
  | None => Throw {| message := "useAuth must be used within an AuthProvider" |}
  | Some context => Normal context
  end.

(** *** States of the store *)

(** [isAuthenticated == (user != null && token != null)] *)
Definition invariant (s : AuthState) : Prop :=
  isAuthenticated s = true ↔ (user s ≠ JNull ∧ token s ≠ None).

(** An action as its type declares it: the [user] of a [SET_USER] payload
    is a [User], not [null]. *)
Definition typed (a : AuthAction) : Prop :=
  match a with
  | SET_USER payload_user _ => payload_user ≠ JNull
  | _ => True
  end.

(** A world at process start: the store in its initial state, nothing sent
    to the backend yet. *)
Definition startup (storage : gmap string string) : World :=
  {| state := initialState; localStorage := storage; backend_log := [] |}.

(** The states the store can be in: the initial one, the one the mount
    effect leaves when the browser storage satisfies [admissible], and any
    state obtained from these by typed actions. *)
Inductive reachable (admissible : gmap string string → Prop) : AuthState → Prop :=
| reach_initial : reachable admissible initialState
| reach_restore storage :
    admissible storage →
    reachable admissible (state (restore (startup storage)).2)
| reach_dispatch s a :
    reachable admissible s → typed a →
    reachable admissible (authReducer s a).

(** Storage whose user data, if any, does not read back as [null]. *)
Definition user_data_not_null (storage : gmap string string) : Prop :=
  ∀ userData, storage !! "user_data" = Some userData →
              JSON.parse userData ≠ Some JNull.

End Auth.

(** ** Application form ([JobApplicationForm.tsx]) *)

Module Form.
Import RegExp.

Record FormData : Type := {
  fullName : string;
  email : string;
  phone : string;
  experience : string;
  employmentStatus : string;
  currentCompany : string;
  skills : list string;
  declaration : bool;
}.

(** [FormErrors]: an object with optional string properties.  A key bound
    to [None] is a property whose value is [undefined]. *)
Abbreviation FormErrors := (gmap string (option string)).

(** [errors[key]]: [None] is [undefined].  Only own properties are
    looked up; none of the names of the form's inputs is a property of
    [Object.prototype]. *)
Definition prop (errors : FormErrors) (key : string) : option string :=
  match errors !! key with
  | Some v => v
  | None => None
  end.

(** ToBoolean on [string | undefined] *)
Definition truthy_opt (v : option string) : bool :=
  match v with
  | Some s => truthy s
  | None => false
  end.

Record FormState : Type := {
  formData : FormData;
  errors : FormErrors;
  isSubmitting : bool;
  isSubmitted : bool;
}.

(** The draft the component starts from and returns to on
    'Submit Another Application'; [user_email] is [user?.email]. *)
Definition initialFormData (user_email : option string) : FormData :=
  {| fullName := EmptyString;
     email := match user_email with
              | Some e => if truthy e then e else EmptyString
              | None => EmptyString
              end;
     phone := EmptyString; experience := EmptyString;
     employmentStatus := EmptyString; currentCompany := EmptyString;
     skills := []; declaration := false |}.

Definition initialFormState (user_email : option string) : FormState :=
  {| formData := initialFormData user_email; errors := ∅;
     isSubmitting := false; isSubmitted := false |}.

Definition skillOptions : list string := ["React"; "Python"; "Java"; "SQL"; "AWS"].

(** [[^\s@]] *)
Definition email_char (c : ascii) : bool := negb (is_space c || Ascii.eqb c "@").

(** [/^[^\s@]+@[^\s@]+\.[^\s@]+$/] *)
Definition emailRegex : regex :=
  Cat (plus (Class email_char))
    (Cat (chr "@")
       (Cat (plus (Class email_char))
          (Cat (chr ".") (plus (Class email_char))))).

Definition validateEmail (email : string) : bool := test emailRegex email.

(** [/^\d{10}$/] *)
Definition phoneRegex : regex := rep 10 (Class is_digit).

Definition validatePhone (phone : string) : bool := test phoneRegex phone.

(** [[a-zA-Z\s\-']] *)
Definition name_char (c : ascii) : bool :=
  is_alpha c || is_space c || Ascii.eqb c "-" || Ascii.eqb c "'".

(** [/^[a-zA-Z\s\-']+$/] *)
Definition nameRegex : regex := plus (Class name_char).

Definition validateFullName (name : string) : bool :=
  test nameRegex (trim name) && (2 <=? String.length (trim name))%nat.

(** [newErrors.key = msg] *)
Definition set_error (key msg : string) (newErrors : FormErrors) : FormErrors :=
  <[key := Some msg]> newErrors.

(** [validateForm] fills the fresh object [newErrors] by eight blocks of
    assignments, in this order; each block below takes the object as the
    blocks before it left it. *)

Definition check_fullName (formData : FormData) (newErrors : FormErrors)
  : FormErrors :=
  if negb (truthy (trim (fullName formData))) then
    set_error "fullName" "Full name is required" newErrors
  else if negb (validateFullName (fullName formData)) then
    set_error "fullName"
      "Full name must contain only letters, spaces, hyphens, and apostrophes"
      newErrors
  else newErrors.

Definition check_email (formData : FormData) (newErrors : FormErrors)
  : FormErrors :=
  if negb (truthy (trim (email formData))) then
    set_error "email" "Email is required" newErrors
  else if negb (validateEmail (email formData)) then
    set_error "email" "Please enter a valid email address" newErrors
  else newErrors.

Definition check_phone (formData : FormData) (newErrors : FormErrors)
  : FormErrors :=
  if negb (truthy (trim (phone formData))) then
    set_error "phone" "Phone number is required" newErrors
  else if negb (validatePhone (phone formData)) then
    set_error "phone" "Phone number must be exactly 10 digits" newErrors
  else newErrors.

Definition check_experience (formData : FormData) (newErrors : FormErrors)
  : FormErrors :=
  if negb (truthy (trim (experience formData))) then
    set_error "experience" "Experience is required" newErrors
  else if lt0 (parseInt (experience formData))
          || isNaN (parseInt (experience formData)) then
    set_error "experience" "Experience must be 0 or greater" newErrors
  else newErrors.

Definition check_employmentStatus (formData : FormData) (newErrors : FormErrors)
  : FormErrors :=
  if negb (truthy (employmentStatus formData)) then
    set_error "experience" "Please select your employment status" newErrors
  else newErrors.

Definition check_currentCompany (formData : FormData) (newErrors : FormErrors)
  : FormErrors :=
  if String.eqb (employmentStatus formData) "yes"
     && negb (truthy (trim (currentCompany formData))) then
    set_error "currentCompany" "Current company name is required" newErrors
  else newErrors.

Definition check_skills (formData : FormData) (newErrors : FormErrors)
  : FormErrors :=
  if (length (skills formData) =? 0)%nat then
    set_error "skills" "Please select at least one skill" newErrors
  else newErrors.

Definition check_declaration (formData : FormData) (newErrors : FormErrors)
  : FormErrors :=
  if negb (declaration formData) then
    set_error "declaration" "You must confirm the information is true" newErrors
  else newErrors.

(** The object [newErrors] at the end of [validateForm]. *)
Definition validateForm_errors (formData : FormData) : FormErrors :=
  let newErrors : FormErrors := ∅ in
  let newErrors := check_fullName formData newErrors in
  let newErrors := check_email formData newErrors in
  let newErrors := check_phone formData newErrors in
  let newErrors := check_experience formData newErrors in
  let newErrors := check_employmentStatus formData newErrors in
  let newErrors := check_currentCompany formData newErrors in
  let newErrors := check_skills formData newErrors in
  let newErrors := check_declaration formData newErrors in
  newErrors.

(** [validateForm()]: stores the new error object and tells whether it has
    no keys. *)
Definition validateForm (s : FormState) : bool * FormState :=
  let newErrors := validateForm_errors (formData s) in
  ((size newErrors =? 0)%nat,
   {| formData := formData s; errors := newErrors;
      isSubmitting := isSubmitting s; isSubmitted := isSubmitted s |}).

(** [e.target] of a change event *)
Record ChangeEvent : Type := {
  name : string;
  value : string;
  type : string;
  checked : bool;
}.

(** [{...prev, [key]: v}] for a string [v].  The record has the keys of
    the [FormData] interface; the inputs of the form only write strings
    under the six string keys, and for any other key the draft is left as
    it is. *)
Definition assign_string (key v : string) (prev : FormData) : FormData :=
  {| fullName := if String.eqb key "fullName" then v else fullName prev;
     email := if String.eqb key "email" then v else email prev;
     phone := if String.eqb key "phone" then v else phone prev;
     experience := if String.eqb key "experience" then v else experience prev;
     employmentStatus :=
       if String.eqb key "employmentStatus" then v else employmentStatus prev;
     currentCompany :=
       if String.eqb key "currentCompany" then v else currentCompany prev;
     skills := skills prev;
     declaration := declaration prev |}.

(** [{...prev, [key]: b}] for a boolean [b]; the only boolean key is
    [declaration]. *)
Definition assign_bool (key : string) (b : bool) (prev : FormData) : FormData :=
  {| fullName := fullName prev; email := email prev; phone := phone prev;
     experience := experience prev; employmentStatus := employmentStatus prev;
     currentCompany := currentCompany prev; skills := skills prev;
     declaration := if String.eqb key "declaration" then b else declaration prev |}.

(** [prev.skills.includes(skill) ? prev.skills.filter(s => s !== skill)
                                 : [...prev.skills, skill]] *)
Definition toggle_skill (skill : string) (prev : FormData) : FormData :=
  {| fullName := fullName prev; email := email prev; phone := phone prev;
     experience := experience prev; employmentStatus := employmentStatus prev;
     currentCompany := currentCompany prev;
     skills :=
       if existsb (String.eqb skill) (skills prev)
       then List.filter (λ s, negb (String.eqb s skill)) (skills prev)
       else skills prev ++ [skill];
     declaration := declaration prev |}.

(** The [setFormData] update of [handleInputChange]. *)
Definition handleInputChange_formData (e : ChangeEvent) (prev : FormData)
  : FormData :=
  if String.eqb (type e) "checkbox" && String.eqb (name e) "skills" then
    toggle_skill (value e) prev
  else if String.eqb (type e) "checkbox" then
    assign_bool (name e) (checked e) prev
  else if String.eqb (name e) "fullName" then
    let filteredValue := remove_class (λ c, negb (name_char c)) (value e) in
    assign_string (name e) filteredValue prev
  else if String.eqb (name e) "phone" then
    let filteredValue :=
      slice0 10 (remove_class (λ c, negb (is_digit c)) (value e)) in
    assign_string (name e) filteredValue prev
  else if String.eqb (name e) "experience" then
    let filteredValue := remove_class (λ c, negb (is_digit c)) (value e) in
    assign_string (name e) filteredValue prev
  else
    assign_string (name e) (value e) prev.

(** The [setErrors] update of [handleInputChange]:
    [if (errors[name]) setErrors(prev => ({...prev, [name]: undefined}))].
    Events are handled one at a time, each on the state the one before it
    left, so the [errors] that is tested and the [prev] that is updated
    are the same object. *)
Definition handleInputChange_errors (e : ChangeEvent) (errors : FormErrors)
  : FormErrors :=
  if truthy_opt (prop errors (name e)) then <[name e := None]> errors
  else errors.

Definition handleInputChange (e : ChangeEvent) (s : FormState) : FormState :=
  {| formData := handleInputChange_formData e (formData s);
     errors := handleInputChange_errors e (errors s);
     isSubmitting := isSubmitting s; isSubmitted := isSubmitted s |}.

(** [handleSubmit]; the simulated delay and the console output are not
    part of the state. *)
Definition handleSubmit (s : FormState) : FormState :=
  let '(ok, s1) := validateForm s in
  {| formData := formData s1; errors := errors s1;
     isSubmitting := false;
     isSubmitted := if ok then true else isSubmitted s1 |}.

(** The 'Submit Another Application' button. *)
Definition submitAnother (user_email : option string) (s : FormState) : FormState :=
  {| formData := initialFormData user_email; errors := ∅;
     isSubmitting := isSubmitting s; isSubmitted := false |}.

(** The change events the rendered inputs can fire: the name and type of
    each input element of the form, with the fixed values of the radio
    buttons and of the skill check boxes. *)
Definition rendered (e : ChangeEvent) : bool :=
  String.eqb (name e) "fullName" && String.eqb (type e) "text"
  || String.eqb (name e) "email" && String.eqb (type e) "email"
  || String.eqb (name e) "phone" && String.eqb (type e) "tel"
  || String.eqb (name e) "experience" && String.eqb (type e) "text"
  || String.eqb (name e) "employmentStatus" && String.eqb (type e) "radio"
     && (String.eqb (value e) "yes" || String.eqb (value e) "no")
  || String.eqb (name e) "currentCompany" && String.eqb (type e) "text"
  || String.eqb (name e) "skills" && String.eqb (type e) "checkbox"
     && existsb (String.eqb (value e)) skillOptions
  || String.eqb (name e) "declaration" && String.eqb (type e) "checkbox".

(** The states of the form component. *)
Inductive reachable (user_email : option string) : FormState → Prop :=
| reach_initial : reachable user_email (initialFormState user_email)
| reach_change e s :
    reachable user_email s → rendered e = true →
    reachable user_email (handleInputChange e s)
| reach_submit s :
    reachable user_email s → reachable user_email (handleSubmit s)
| reach_another s :
    reachable user_email s → reachable user_email (submitAnother user_email s).

(** Every message held by an error object is a non-empty string. *)
Definition messages_truthy (m : FormErrors) : Prop :=
  ∀ k msg, m !! k = Some (Some msg) → truthy msg = true.

(** The phone rule in the words of the specification: the non-digit
    characters are stripped and the result is truncated to at most 10
    characters. *)
Definition spec_phone_filter (input : string) : string :=
  string_of_list_ascii
    (take 10 (List.filter is_digit (list_ascii_of_string input))).

(** 'exactly 10 digits' *)
Definition spec_ten_digits (s : string) : Prop :=
  String.length s = 10 ∧ all_chars is_digit s = true.

End Form.

(** ** The loops of the JSON functions, by name

    [JSON.parse_value] and [Stringify.stringify] walk the members of an
    object with a local loop.  The same loops as functions of their own,
    for statements about them. *)

Module Loops.
Import JSON Stringify.

(** The member loop of [parse_value], over the parser for the values. *)
Definition parse_members (parse_value : string → option (json * string))
  : nat → string → option (list (list N * json) * string) :=
  fix parse_members (n : nat) (s : string) :=
    match n with
    | O => None
    | S n =>
        '(k, s1) ← parse_string (skip_ws s);
        s2 ← expect ":" (skip_ws s1);
        '(v, s3) ← parse_value s2;
        sep ← parse_separator "}" s3;
        match sep with
        | Close r => Some ([(k, v)], r)
        | Comma r => '(kvs, r') ← parse_members n r; Some ((k, v) :: kvs, r')
        end
    end.

(** The member loop of [stringify]. *)
Fixpoint members (kvs : list (list N * json)) : string :=
  match kvs with
  | [] => "}"
  | (k, v) :: kvs' =>
      quote k +:+ ":" +:+ stringify v +:+
      match kvs' with [] => "}" | _ :: _ => "," +:+ members kvs' end
  end.

End Loops.

(** Objects all of whose properties are strings, such as the one behind
    a [User]. *)

Module Objects.
Import JSON Auth.




End Objects.

(** ** Drafts *)

Module Drafts.
Import Form.

(** A draft that passes every check of [validateForm]. *)
Definition valid_draft (fd : FormData) : Prop :=
  validateFullName (fullName fd) = true
  ∧ validateEmail (email fd) = true
  ∧ validatePhone (phone fd) = true
  ∧ (∃ n, parseInt (experience fd) = Some n ∧ (0 ≤ n)%Z)
  ∧ employmentStatus fd ≠ EmptyString
  ∧ (employmentStatus fd = "yes" → trim (currentCompany fd) ≠ EmptyString)
  ∧ skills fd ≠ []
  ∧ declaration fd = true.

(** What the input handlers let into a draft. *)
Definition typed_draft (fd : FormData) : Prop :=
  all_chars name_char (fullName fd) = true
  ∧ all_chars is_digit (phone fd) = true
  ∧ (String.length (phone fd) ≤ 10)%nat
  ∧ all_chars is_digit (experience fd) = true
  ∧ (employmentStatus fd = EmptyString ∨ employmentStatus fd = "yes"
     ∨ employmentStatus fd = "no").

(** The skills of a draft as a set drawn from the catalogue. *)
Definition skills_ok (fd : FormData) : Prop :=
  NoDup (skills fd) ∧ ∀ skill, skill ∈ skills fd → skill ∈ skillOptions.

(** The keys the [FormErrors] interface declares. *)
Definition error_keys : list string :=
  ["fullName"; "email"; "phone"; "experience"; "currentCompany"; "skills";
   "declaration"].

(** The number of digits in a string. *)
Fixpoint count_digits (s : string) : nat :=
  match s with
  | EmptyString => 0
  | String c r => (if is_digit c then 1 else 0) + count_digits r
  end.

End Drafts.

(** * Properties *)

(** ** Built-ins *)

Section StringFacts.

Lemma truthy_false (s : string) : truthy s = false ↔ s = EmptyString.
Proof. destruct s; simpl; split; congruence. Qed.

Lemma truthy_true (s : string) : truthy s = true ↔ s ≠ EmptyString.
Proof. destruct s; simpl; split; congruence. Qed.

Lemma trimEnd_cons_nonspace (c : ascii) (r : string) :
  is_space c = false → trimEnd (String c r) ≠ EmptyString.
Proof.
  intros Hc. simpl. destruct (trimEnd r); [rewrite Hc |]; discriminate.
Qed.

Lemma trimStart_shape (s : string) :
  trimStart s = EmptyString
  ∨ ∃ c r, trimStart s = String c r ∧ is_space c = false.
Proof.
  induction s as [|c r IH]; simpl; [by left |].
  destruct (is_space c) eqn:Hc; [exact IH |].
  right. by exists c, r.
Qed.

(** A string trims to nothing exactly when it is white space throughout. *)
Lemma trim_empty (s : string) :
  trim s = EmptyString ↔ trimStart s = EmptyString.
Proof.
  unfold trim. split.
  - destruct (trimStart_shape s) as [E | (c & r & E & Hc)]; [done |].
    rewrite E. intros H. by apply trimEnd_cons_nonspace in H.
  - by intros ->.
Qed.

Lemma parseInt_blank (s : string) : trimStart s = EmptyString → parseInt s = None.
Proof. unfold parseInt. by intros ->. Qed.

Lemma digit_not_space (c : ascii) : is_digit c = true → is_space c = false.
Proof.
  destruct c as [[] [] [] [] [] [] [] []]; vm_compute; congruence.
Qed.

Lemma trimStart_digits (s : string) :
  s ≠ EmptyString → all_chars is_digit s = true → trimStart s ≠ EmptyString.
Proof.
  destruct s as [|c r]; [done |]. simpl. intros _ H.
  apply andb_prop in H as [Hc _]. by rewrite (digit_not_space c Hc).
Qed.

End StringFacts.

Section RegExpFacts.
Import RegExp.

Lemma test_Void (s : string) : test Void s = false.
Proof. induction s; simpl; auto. Qed.

Lemma test_Alt (r1 r2 : regex) (s : string) :
  test (Alt r1 r2) s = test r1 s || test r2 s.
Proof. revert r1 r2. induction s as [|c s IH]; intros; simpl; auto. Qed.

Lemma test_Cat_Void (r : regex) (s : string) : test (Cat Void r) s = false.
Proof. induction s; simpl; auto. Qed.

Lemma test_Cat_Eps (r : regex) (s : string) : test (Cat Eps r) s = test r s.
Proof.
  destruct s as [|c s]; simpl; [done |].
  by rewrite test_Alt, test_Cat_Void.
Qed.

Lemma test_Cat_Class (p : ascii → bool) (r : regex) (c : ascii) (s : string) :
  test (Cat (Class p) r) (String c s) = p c && test r s.
Proof.
  simpl. destruct (p c); simpl; [apply test_Cat_Eps | apply test_Cat_Void].
Qed.

(** [/^[p]{n}$/] accepts the strings of [n] characters, all in [p]. *)
Lemma test_rep_Class (p : ascii → bool) (n : nat) (s : string) :
  test (rep n (Class p)) s = (String.length s =? n)%nat && all_chars p s.
Proof.
  revert s. induction n as [|n IH]; intros [|c s].
  - done.
  - simpl. apply test_Void.
  - done.
  - change (rep (S n) (Class p)) with (Cat (Class p) (rep n (Class p))).
    rewrite test_Cat_Class, IH. simpl.
    destruct (p c), (String.length s =? n)%nat; done.
Qed.

End RegExpFacts.

(** ** The application form *)

Module FormTheory.
Import RegExp Form.

Lemma validatePhone_spec (s : string) :
  validatePhone s = true ↔ spec_ten_digits s.
Proof.
  unfold validatePhone, phoneRegex, spec_ten_digits.
  rewrite test_rep_Class, andb_true_iff, Nat.eqb_eq. done.
Qed.

(** *** Which block writes which slot *)

Lemma lookup_set_error_ne (k k' msg : string) (m : FormErrors) :
  k ≠ k' → set_error k msg m !! k' = m !! k'.
Proof. intros. unfold set_error. by rewrite lookup_insert_ne. Qed.

Lemma lookup_set_error_eq (k msg : string) (m : FormErrors) :
  set_error k msg m !! k = Some (Some msg).
Proof. unfold set_error. by rewrite lookup_insert_eq. Qed.

Ltac frame_block :=
  intros; repeat case_match; rewrite ?lookup_set_error_ne by done; done.

Lemma check_fullName_frame fd (m : FormErrors) k :
  k ≠ "fullName" → check_fullName fd m !! k = m !! k.
Proof. unfold check_fullName. frame_block. Qed.

Lemma check_email_frame fd (m : FormErrors) k :
  k ≠ "email" → check_email fd m !! k = m !! k.
Proof. unfold check_email. frame_block. Qed.

Lemma check_phone_frame fd (m : FormErrors) k :
  k ≠ "phone" → check_phone fd m !! k = m !! k.
Proof. unfold check_phone. frame_block. Qed.

Lemma check_experience_frame fd (m : FormErrors) k :
  k ≠ "experience" → check_experience fd m !! k = m !! k.
Proof. unfold check_experience. frame_block. Qed.

Lemma check_employmentStatus_frame fd (m : FormErrors) k :
  k ≠ "experience" → check_employmentStatus fd m !! k = m !! k.
Proof. unfold check_employmentStatus. frame_block. Qed.

Lemma check_currentCompany_frame fd (m : FormErrors) k :
  k ≠ "currentCompany" → check_currentCompany fd m !! k = m !! k.
Proof. unfold check_currentCompany. frame_block. Qed.

Lemma check_skills_frame fd (m : FormErrors) k :
  k ≠ "skills" → check_skills fd m !! k = m !! k.
Proof. unfold check_skills. frame_block. Qed.

Lemma check_declaration_frame fd (m : FormErrors) k :
  k ≠ "declaration" → check_declaration fd m !! k = m !! k.
Proof. unfold check_declaration. frame_block. Qed.

(** The phone slot is decided by the phone block alone. *)
Lemma phone_slot fd :
  validateForm_errors fd !! "phone" = check_phone fd ∅ !! "phone".
Proof.
  unfold validateForm_errors. cbv zeta.
  rewrite check_declaration_frame, check_skills_frame,
    check_currentCompany_frame, check_employmentStatus_frame,
    check_experience_frame by done.
  unfold check_phone.
  repeat case_match; rewrite ?lookup_set_error_eq; try done;
    rewrite check_email_frame, check_fullName_frame by done; done.
Qed.

(** The experience slot is decided by the experience block and the
    employment-status block. *)
Lemma experience_slot fd :
  validateForm_errors fd !! "experience"
  = check_employmentStatus fd (check_experience fd ∅) !! "experience".
Proof.
  unfold validateForm_errors. cbv zeta.
  rewrite check_declaration_frame, check_skills_frame,
    check_currentCompany_frame by done.
  unfold check_employmentStatus, check_experience.
  repeat case_match; rewrite ?lookup_set_error_eq; try done;
    rewrite check_phone_frame, check_email_frame, check_fullName_frame by done;
    done.
Qed.

Lemma employmentStatus_slot fd :
  validateForm_errors fd !! "employmentStatus" = None.
Proof.
  unfold validateForm_errors. cbv zeta.
  by rewrite check_declaration_frame, check_skills_frame,
    check_currentCompany_frame, check_employmentStatus_frame,
    check_experience_frame, check_phone_frame, check_email_frame,
    check_fullName_frame by done.
Qed.

(** *** The phone filter *)

Lemma remove_class_filter (p : ascii → bool) (s : string) :
  remove_class (λ c, negb (p c)) s
  = string_of_list_ascii (List.filter p (list_ascii_of_string s)).
Proof.
  induction s as [|c s IH]; simpl; [done |].
  destruct (p c); simpl; by rewrite IH.
Qed.

Lemma slice0_take (n : nat) (l : list ascii) :
  slice0 n (string_of_list_ascii l) = string_of_list_ascii (take n l).
Proof.
  revert l. induction n as [|n IH]; intros [|c l]; simpl; try done.
  by rewrite IH.
Qed.

Lemma phone_filter_spec (input : string) :
  slice0 10 (remove_class (λ c, negb (is_digit c)) input)
  = spec_phone_filter input.
Proof.
  unfold spec_phone_filter. by rewrite remove_class_filter, slice0_take.
Qed.

Lemma handleInputChange_phone (e : ChangeEvent) (prev : FormData) :
  name e = "phone" → type e ≠ "checkbox" →
  phone (handleInputChange_formData e prev)
  = slice0 10 (remove_class (λ c, negb (is_digit c)) (value e)).
Proof.
  intros Hname Htype. unfold handleInputChange_formData.
  apply String.eqb_neq in Htype. rewrite Htype, Hname. reflexivity.
Qed.

Lemma phone_slot_None fd :
  validateForm_errors fd !! "phone" = None ↔ validatePhone (phone fd) = true.
Proof.
  rewrite phone_slot. unfold check_phone.
  destruct (validatePhone (phone fd)) eqn:Hv; simpl.
  - assert (truthy (trim (phone fd)) = true) as ->; [| done].
    apply validatePhone_spec in Hv as [Hlen Hdig].
    apply truthy_true. rewrite trim_empty.
    apply trimStart_digits; [| done].
    intros E. by rewrite E in Hlen.
  - destruct (truthy (trim (phone fd))); simpl;
      rewrite lookup_set_error_eq; split; discriminate.
Qed.

(** *** Messages are never empty *)

Lemma messages_truthy_empty : messages_truthy ∅.
Proof. intros k msg. by rewrite lookup_empty. Qed.

Lemma messages_truthy_set_error k msg (m : FormErrors) :
  truthy msg = true → messages_truthy m → messages_truthy (set_error k msg m).
Proof.
  intros Hmsg Hm k' msg'. unfold set_error.
  destruct (decide (k = k')) as [->|Hne].
  - rewrite lookup_insert_eq. congruence.
  - rewrite lookup_insert_ne by done. apply Hm.
Qed.

Lemma messages_truthy_clear k (m : FormErrors) :
  messages_truthy m → messages_truthy (<[k := None]> m).
Proof.
  intros Hm k' msg'.
  destruct (decide (k = k')) as [->|Hne].
  - by rewrite lookup_insert_eq.
  - rewrite lookup_insert_ne by done. apply Hm.
Qed.

Ltac block_truthy :=
  intros; repeat case_match; try done;
  by apply messages_truthy_set_error.

Lemma validateForm_errors_truthy fd : messages_truthy (validateForm_errors fd).
Proof.
  unfold validateForm_errors. cbv zeta.
  assert (∀ m, messages_truthy m → messages_truthy (check_fullName fd m))
    as H1 by (unfold check_fullName; block_truthy).
  assert (∀ m, messages_truthy m → messages_truthy (check_email fd m))
    as H2 by (unfold check_email; block_truthy).
  assert (∀ m, messages_truthy m → messages_truthy (check_phone fd m))
    as H3 by (unfold check_phone; block_truthy).
  assert (∀ m, messages_truthy m → messages_truthy (check_experience fd m))
    as H4 by (unfold check_experience; block_truthy).
  assert (∀ m, messages_truthy m → messages_truthy (check_employmentStatus fd m))
    as H5 by (unfold check_employmentStatus; block_truthy).
  assert (∀ m, messages_truthy m → messages_truthy (check_currentCompany fd m))
    as H6 by (unfold check_currentCompany; block_truthy).
  assert (∀ m, messages_truthy m → messages_truthy (check_skills fd m))
    as H7 by (unfold check_skills; block_truthy).
  assert (∀ m, messages_truthy m → messages_truthy (check_declaration fd m))
    as H8 by (unfold check_declaration; block_truthy).
  apply H8, H7, H6, H5, H4, H3, H2, H1, messages_truthy_empty.
Qed.

Lemma reachable_messages_truthy user_email (s : FormState) :
  reachable user_email s → messages_truthy (errors s).
Proof.
  induction 1 as [|e s _ IH _|s _ IH|s _ IH]; simpl.
  - apply messages_truthy_empty.
  - unfold handleInputChange_errors. case_match; [| done].
    by apply messages_truthy_clear.
  - unfold handleSubmit, validateForm. simpl. apply validateForm_errors_truthy.
  - apply messages_truthy_empty.
Qed.

(** *** The examples of the specification *)

Example fullName_examples :
  validateFullName "John123" = false
  ∧ validateFullName "John O'Brien-Smith" = true
  ∧ validateFullName "J" = false.
Proof. vm_compute. done. Qed.

Example phone_examples :
  validatePhone "12345" = false ∧ validatePhone "1234567890" = true.
Proof. vm_compute. done. Qed.

Example experience_examples :
  parseInt "-1" = Some (-1)%Z ∧ parseInt "abc" = None
  ∧ parseInt "0" = Some 0%Z ∧ parseInt "5" = Some 5%Z.
Proof. vm_compute. done. Qed.

Example email_examples :
  validateEmail "user@example.com" = true
  ∧ validateEmail "user@example" = false
  ∧ validateEmail "us er@example.com" = false.
Proof. vm_compute. done. Qed.

Example valid_draft_has_no_errors :
  validateForm_errors
    {| fullName := "John O'Brien-Smith"; email := "user@example.com";
       phone := "1234567890"; experience := "5"; employmentStatus := "no";
       currentCompany := EmptyString; skills := ["React"];
       declaration := true |}
  = ∅.
Proof. vm_compute. reflexivity. Qed.

(** *** Claims about the form *)

(** C2. When the employment status of a draft is unset, whole-form
    validation leaves 'Please select your employment status' in the
    [experience] slot of the error object: the employment-status block
    writes that slot whatever the experience block left there, and the
    status has no slot of its own. *)
Theorem status_message_overwrites_experience_slot (fd : FormData)
    (Hunset : employmentStatus fd = EmptyString) :
  validateForm_errors fd !! "experience"
    = Some (Some "Please select your employment status")
  ∧ (∀ before : FormErrors,
       check_employmentStatus fd before !! "experience"
       = Some (Some "Please select your employment status"))
  ∧ validateForm_errors fd !! "employmentStatus" = None.
Proof.
  assert (∀ before : FormErrors,
            check_employmentStatus fd before !! "experience"
            = Some (Some "Please select your employment status")) as Hblock.
  { intros before. unfold check_employmentStatus. rewrite Hunset. simpl.
    apply lookup_set_error_eq. }
  split; [| split].
  - rewrite experience_slot. apply Hblock.
  - exact Hblock.
  - apply employmentStatus_slot.
Qed.

Lemma status_message_overwrites_experience_slot_witness :
  let fd := initialFormData None in
  employmentStatus fd = EmptyString
  ∧ check_experience fd ∅ !! "experience" = Some (Some "Experience is required")
  ∧ validateForm_errors fd !! "experience"
    = Some (Some "Please select your employment status").
Proof.
  split; [reflexivity |]. split; [reflexivity |].
  apply (status_message_overwrites_experience_slot (initialFormData None)).
  reflexivity.
Defined.

(** C7. In every state of the form, a change event of any rendered input
    leaves [errors[name]] undefined for the input's own name, whatever the
    new value is, and leaves the property of every other key as it was. *)
Theorem input_change_clears_own_error (user_email : option string)
    (s : FormState) (e : ChangeEvent)
    (Hreach : reachable user_email s) (Hinput : rendered e = true) :
  prop (errors (handleInputChange e s)) (name e) = None
  ∧ ∀ g, g ≠ name e → errors (handleInputChange e s) !! g = errors s !! g.
Proof.
  pose proof (reachable_messages_truthy _ _ Hreach) as Hmsgs.
  simpl. unfold handleInputChange_errors.
  destruct (truthy_opt (prop (errors s) (name e))) eqn:Hcur.
  - split.
    + unfold prop. by rewrite lookup_insert_eq.
    + intros g Hg. by rewrite lookup_insert_ne.
  - split; [| done].
    unfold prop in *. destruct (errors s !! name e) as [[msg|]|] eqn:Hlk; try done.
    simpl in Hcur. rewrite (Hmsgs _ _ Hlk) in Hcur. discriminate.
Qed.

Lemma input_change_clears_own_error_witness :
  let s := handleSubmit (initialFormState None) in
  let e := {| name := "phone"; value := "12a34"; type := "tel"; checked := false |} in
  prop (errors s) "phone" = Some "Phone number is required"
  ∧ validateForm_errors (formData (handleInputChange e s)) !! "phone"
    = Some (Some "Phone number must be exactly 10 digits")
  ∧ prop (errors (handleInputChange e s)) "phone" = None
  ∧ ∀ g, g ≠ "phone" → errors (handleInputChange e s) !! g = errors s !! g.
Proof.
  intros s e. split; [vm_compute; reflexivity |].
  split; [vm_compute; reflexivity |].
  apply (input_change_clears_own_error None s e).
  - apply reach_submit, reach_initial.
  - reflexivity.
Defined.

(** C8. What is stored for the phone field is the typed string with its
    non-digit characters removed, cut to at most 10 characters; typing
    '12a34' stores '1234'; and whole-form validation leaves the phone slot
    empty exactly when the stored phone is exactly 10 digits. *)
Theorem phone_input_filtered_and_validated (e : ChangeEvent) (s : FormState)
    (fd : FormData)
    (Hname : name e = "phone") (Htype : type e ≠ "checkbox") :
  phone (formData (handleInputChange e s)) = spec_phone_filter (value e)
  ∧ (value e = "12a34" → phone (formData (handleInputChange e s)) = "1234")
  ∧ (validateForm_errors fd !! "phone" = None ↔ spec_ten_digits (phone fd)).
Proof.
  assert (phone (formData (handleInputChange e s)) = spec_phone_filter (value e))
    as Hstored.
  { simpl. rewrite handleInputChange_phone by done. apply phone_filter_spec. }
  split; [exact Hstored |]. split.
  - intros Hv. rewrite Hstored, Hv. reflexivity.
  - rewrite phone_slot_None. apply validatePhone_spec.
Qed.

Lemma phone_input_filtered_and_validated_witness :
  let e := {| name := "phone"; value := "12a34"; type := "tel"; checked := false |} in
  let s := initialFormState None in
  phone (formData (handleInputChange e s)) = "1234".
Proof.
  intros e s.
  destruct (phone_input_filtered_and_validated e s (formData s)) as (_ & H & _).
  - reflexivity.
  - discriminate.
  - apply H. reflexivity.
Defined.

(** C10. With an employment status selected, whole-form validation leaves
    the experience slot empty exactly when [parseInt] of the experience
    string is a number that is not negative.  Only the leading integer is
    read: '5abc' parses to 5 and passes although it is not a numeral. *)
Theorem experience_validated_by_integer_prefix (fd : FormData)
    (Hstatus : employmentStatus fd ≠ EmptyString) :
  (validateForm_errors fd !! "experience" = None
   ↔ ∃ n, parseInt (experience fd) = Some n ∧ (0 ≤ n)%Z)
  ∧ (experience fd = "5abc" → validateForm_errors fd !! "experience" = None)
  ∧ parseInt "5abc" = Some 5%Z
  ∧ all_chars is_digit "5abc" = false.
Proof.
  assert (validateForm_errors fd !! "experience" = None
          ↔ ∃ n, parseInt (experience fd) = Some n ∧ (0 ≤ n)%Z) as Hiff.
  { rewrite experience_slot. unfold check_employmentStatus.
    apply truthy_true in Hstatus. rewrite Hstatus. simpl.
    unfold check_experience.
    destruct (truthy (trim (experience fd))) eqn:Htrim; simpl.
    - destruct (parseInt (experience fd)) as [n|]; simpl.
      + rewrite orb_false_r. destruct (n <? 0)%Z eqn:Hn.
        * rewrite lookup_set_error_eq. apply Z.ltb_lt in Hn.
          split; [discriminate |]. intros (n' & [= <-] & Hge). lia.
        * apply Z.ltb_ge in Hn. split; [| done]. intros _. by exists n.
      + rewrite lookup_set_error_eq. split; [discriminate |].
        by intros (n & ? & _).
    - rewrite lookup_set_error_eq. split; [discriminate |].
      intros (n & Hp & _). apply truthy_false, trim_empty in Htrim.
      rewrite (parseInt_blank _ Htrim) in Hp. discriminate. }
  split; [exact Hiff |]. split; [| split; reflexivity].
  intros E. apply Hiff. exists 5%Z. rewrite E. split; [reflexivity | lia].
Qed.

Lemma experience_validated_by_integer_prefix_witness :
  let fd := {| fullName := "Ann Lee"; email := "ann@example.com";
               phone := "1234567890"; experience := "5abc";
               employmentStatus := "no"; currentCompany := EmptyString;
               skills := ["SQL"]; declaration := true |} in
  validateForm_errors fd !! "experience" = None.
Proof.
  intros fd.
  destruct (experience_validated_by_integer_prefix fd) as (_ & H & _).
  - discriminate.
  - apply H. reflexivity.
Defined.

End FormTheory.

(** ** The session store *)

Module AuthTheory.
Import JSON Auth.

Ltac run :=
  unfold restore, login, logout, store_session, mockAPI_login, JSON_parse,
    try_catch, throw, dispatch, getItem, setItem, removeItem, record_call,
    startup;
  unfold mbind, M_bind, mret, M_ret; simpl.

Example parse_examples :
  JSON.parse "null" = Some JNull
  ∧ JSON.parse " [1, -2.5e3, true] " = Some (JArr [JNum "1"; JNum "-2.5e3"; JBool true])
  ∧ JSON.parse "{}" = Some (JObj [])
  ∧ JSON.parse "{bad" = None
  ∧ JSON.parse "undefined" = None
  ∧ JSON.parse "[1,]" = None.
Proof. vm_compute. done. Qed.

(** What [login] stores is read back by [JSON.parse] as the same user. *)
Example stored_user_reads_back :
  let u := {| id := "1"; email := "user@example.com"; name := "John Doe";
              avatar := None; provider := provider_email;
              createdAt := "2023-11-14T22:13:20.000Z" |} in
  JSON.parse (Stringify.stringify (user_value u)) = Some (user_value u).
Proof. vm_compute. reflexivity. Qed.

Lemma parse_empty : JSON.parse EmptyString = None.
Proof. reflexivity. Qed.

Lemma parse_Some_truthy (text : string) (v : json) :
  JSON.parse text = Some v → truthy text = true.
Proof. destruct text; [rewrite parse_empty; discriminate | done]. Qed.

(** What the mount effect does, by the contents of the storage. *)
Lemma restore_parsed (w : World) (tok ud : string) (u : json) :
  localStorage w !! "auth_token" = Some tok →
  localStorage w !! "user_data" = Some ud →
  truthy tok = true → JSON.parse ud = Some u →
  restore w
  = (Normal (),
     {| state := {| user := u; token := Some tok;
                    isLoading := false; isAuthenticated := true |};
        localStorage := localStorage w; backend_log := backend_log w |}).
Proof.
  intros Htok Hud Ht Hp. run. rewrite Htok, Hud, Ht.
  rewrite (parse_Some_truthy _ _ Hp). simpl. rewrite Hp. reflexivity.
Qed.

Lemma restore_corrupt (w : World) (tok ud : string) :
  localStorage w !! "auth_token" = Some tok →
  localStorage w !! "user_data" = Some ud →
  truthy tok = true → truthy ud = true → JSON.parse ud = None →
  restore w
  = (Normal (),
     {| state := authReducer (state w) (SET_LOADING false);
        localStorage := delete "user_data" (delete "auth_token" (localStorage w));
        backend_log := backend_log w |}).
Proof.
  intros Htok Hud Ht Hu Hp. run. rewrite Htok, Hud, Ht, Hu. simpl.
  rewrite Hp. reflexivity.
Qed.

Lemma restore_skipped (w : World) :
  match localStorage w !! "auth_token", localStorage w !! "user_data" with
  | Some tok, Some ud => truthy tok && truthy ud = false
  | _, _ => True
  end →
  restore w
  = (Normal (),
     {| state := authReducer (state w) (SET_LOADING false);
        localStorage := localStorage w; backend_log := backend_log w |}).
Proof.
  run. destruct (localStorage w !! "auth_token") as [tok|];
    destruct (localStorage w !! "user_data") as [ud|]; try done.
  by intros ->.
Qed.

Lemma invariant_initial : invariant initialState.
Proof. unfold invariant. simpl. split; [discriminate | by intros [? _]]. Qed.

Lemma invariant_dispatch (s : AuthState) (a : AuthAction) :
  invariant s → typed a → invariant (authReducer s a).
Proof.
  unfold invariant. intros Hs Ha. destruct a as [b|u t|]; simpl in *.
  - exact Hs.
  - split; [by intros _ | done].
  - split; [discriminate | by intros [? _]].
Qed.

Lemma invariant_stopped (storage storage' : gmap string string) log :
  invariant
    (state (Normal (),
            {| state := authReducer (state (startup storage)) (SET_LOADING false);
               localStorage := storage'; backend_log := log |}).2).
Proof.
  simpl. apply (invariant_dispatch initialState (SET_LOADING false)); [| done].
  apply invariant_initial.
Qed.

Lemma invariant_restore (storage : gmap string string) :
  user_data_not_null storage →
  invariant (state (restore (startup storage)).2).
Proof.
  intros Hadm.
  destruct (storage !! "auth_token") as [tok|] eqn:Htok;
    [destruct (storage !! "user_data") as [ud|] eqn:Hud |].
  - destruct (truthy tok) eqn:Ht; [destruct (truthy ud) eqn:Hu |].
    + destruct (JSON.parse ud) as [u|] eqn:Hp.
      * rewrite (restore_parsed _ tok ud u) by done. simpl.
        unfold invariant. simpl. split; [intros _ | done].
        split; [| done]. intros ->. by apply (Hadm ud).
      * rewrite (restore_corrupt _ tok ud) by done. apply invariant_stopped.
    + rewrite restore_skipped; [apply invariant_stopped |].
      simpl. rewrite Htok, Hud, Ht, Hu. done.
    + rewrite restore_skipped; [apply invariant_stopped |].
      simpl. rewrite Htok, Hud, Ht. done.
  - rewrite restore_skipped; [apply invariant_stopped |].
    simpl. by rewrite Htok, Hud.
  - rewrite restore_skipped; [apply invariant_stopped |].
    simpl. by rewrite Htok.
Qed.

Lemma mockAPI_login_rejects (d : DateReading) (c : LoginCredentials) (w : World)
    (err : Error) :
  (mockAPI_login d c w).1 = Throw err →
  String.eqb (login_email c) "user@example.com"
  && String.eqb (login_password c) "password123" = false
  ∧ err = {| message := "Invalid credentials" |}.
Proof.
  run.
  destruct (String.eqb (login_email c) "user@example.com"
            && String.eqb (login_password c) "password123"); simpl.
  - discriminate.
  - by intros [= <-].
Qed.

(** *** Claims about the session store *)

(** C1, amended.  [isAuthenticated] is true exactly when [user] and
    [token] are both non-null in the initial state, in the state the
    startup restore leaves whenever the stored user data does not parse to
    [null], and in every state reached from these by reducer actions whose
    [SET_USER] payload carries a non-null user. *)
Theorem invariant_of_reachable_states (s : AuthState)
    (Hreach : reachable user_data_not_null s) :
  invariant s.
Proof.
  induction Hreach as [|storage Hadm|s a _ IH Ha].
  - apply invariant_initial.
  - by apply invariant_restore.
  - by apply invariant_dispatch.
Qed.

Lemma invariant_of_reachable_states_witness :
  let d := {| now := 1700000000000; iso := "2023-11-14T22:13:20.000Z" |} in
  let c := {| login_email := "user@example.com"; login_password := "password123" |} in
  let storage := localStorage (login d c (startup ∅)).2 in
  let s := authReducer (state (restore (startup storage)).2) (SET_LOADING true) in
  isAuthenticated s = true ∧ invariant s.
Proof.
  intros d c storage s. split; [vm_compute; reflexivity |].
  apply (invariant_of_reachable_states s).
  apply reach_dispatch; [| exact I].
  apply reach_restore.
  intros userData H. vm_compute in H. injection H as <-.
  vm_compute. discriminate.
Defined.

(** C1 as stated fails: with the text [null] stored as user data next to a
    token, the startup restore leaves [isAuthenticated] true and [user]
    null. *)
Lemma null_user_data_breaks_invariant :
  let storage : gmap string string :=
    {[ "auth_token" := "mock-jwt-token-1"; "user_data" := "null" ]} in
  let s := state (restore (startup storage)).2 in
  reachable (λ _, True) s
  ∧ s = {| user := JNull; token := Some "mock-jwt-token-1";
           isLoading := false; isAuthenticated := true |}
  ∧ ¬ invariant s.
Proof.
  intros storage s.
  assert (s = {| user := JNull; token := Some "mock-jwt-token-1";
                 isLoading := false; isAuthenticated := true |}) as Hs
    by (vm_compute; reflexivity).
  split; [by apply reach_restore |]. split; [exact Hs |].
  rewrite Hs. unfold invariant. simpl. intros [H _].
  destruct (H eq_refl) as [Hu _]. by apply Hu.
Qed.

(** C3, amended.  When the storage holds a non-empty token string and
    user data that [JSON.parse] accepts, the restore ends with
    [isAuthenticated = true], [isLoading = false], [user] the parsed user
    data and [token] the stored token, and leaves the storage as it was. *)
Theorem restore_valid_session (storage : gmap string string)
    (tok ud : string) (u : json)
    (Htok : storage !! "auth_token" = Some tok)
    (Hud : storage !! "user_data" = Some ud)
    (Hnonempty : tok ≠ EmptyString)
    (Hparse : JSON.parse ud = Some u) :
  restore (startup storage)
  = (Normal (),
     {| state := {| user := u; token := Some tok;
                    isLoading := false; isAuthenticated := true |};
        localStorage := storage; backend_log := [] |}).
Proof.
  apply (restore_parsed (startup storage) tok ud u); try done.
  by apply truthy_true.
Qed.

Lemma restore_valid_session_witness :
  let u := {| id := "1"; email := "user@example.com"; name := "John Doe";
              avatar := None; provider := provider_email;
              createdAt := "2023-11-14T22:13:20.000Z" |} in
  let storage : gmap string string :=
    {[ "auth_token" := "mock-jwt-token-1700000000000";
       "user_data" := Stringify.stringify (user_value u) ]} in
  state (restore (startup storage)).2
  = {| user := user_value u; token := Some "mock-jwt-token-1700000000000";
       isLoading := false; isAuthenticated := true |}.
Proof.
  intros u storage.
  rewrite (restore_valid_session storage "mock-jwt-token-1700000000000"
             (Stringify.stringify (user_value u)) (user_value u)).
  - reflexivity.
  - vm_compute. reflexivity.
  - vm_compute. reflexivity.
  - discriminate.
  - vm_compute. reflexivity.
Defined.

(** C3 as stated fails: an empty string stored under the token key is a
    token string, the user data is valid JSON, and the restore ends
    unauthenticated. *)
Lemma empty_token_is_not_restored :
  let storage : gmap string string :=
    {[ "auth_token" := EmptyString; "user_data" := "{}" ]} in
  storage !! "auth_token" = Some EmptyString
  ∧ JSON.parse "{}" = Some (JObj [])
  ∧ state (restore (startup storage)).2
    = {| user := JNull; token := None;
         isLoading := false; isAuthenticated := false |}.
Proof. vm_compute. done. Qed.

(** C4, amended.  When the storage holds a non-empty token and a non-empty
    user-data string that [JSON.parse] rejects, the restore completes
    without throwing, ends with [user = null], [token = null],
    [isAuthenticated = false], [isLoading = false], and both keys are
    absent from the storage afterwards. *)
Theorem restore_corrupt_user_data (storage : gmap string string)
    (tok ud : string)
    (Htok : storage !! "auth_token" = Some tok)
    (Hud : storage !! "user_data" = Some ud)
    (Htok_nonempty : tok ≠ EmptyString)
    (Hud_nonempty : ud ≠ EmptyString)
    (Hparse : JSON.parse ud = None) :
  (restore (startup storage)).1 = Normal ()
  ∧ state (restore (startup storage)).2
    = {| user := JNull; token := None;
         isLoading := false; isAuthenticated := false |}
  ∧ localStorage (restore (startup storage)).2 !! "auth_token" = None
  ∧ localStorage (restore (startup storage)).2 !! "user_data" = None.
Proof.
  rewrite (restore_corrupt (startup storage) tok ud)
    by (try done; by apply truthy_true).
  simpl. repeat split.
  - by rewrite lookup_delete_ne, lookup_delete_eq.
  - by rewrite lookup_delete_eq.
Qed.

Lemma restore_corrupt_user_data_witness :
  let storage : gmap string string :=
    {[ "auth_token" := "mock-jwt-token-1"; "user_data" := "{bad" ]} in
  (restore (startup storage)).1 = Normal ()
  ∧ state (restore (startup storage)).2
    = {| user := JNull; token := None;
         isLoading := false; isAuthenticated := false |}
  ∧ localStorage (restore (startup storage)).2 !! "auth_token" = None
  ∧ localStorage (restore (startup storage)).2 !! "user_data" = None.
Proof.
  intros storage.
  apply (restore_corrupt_user_data storage "mock-jwt-token-1" "{bad").
  - vm_compute. reflexivity.
  - vm_compute. reflexivity.
  - discriminate.
  - discriminate.
  - vm_compute. reflexivity.
Defined.

(** C4 as stated fails: the empty string stored as user data is not valid
    JSON, a token is stored, and after the restore both keys are still
    there; likewise when the stored token is the empty string and the user
    data is corrupt. *)
Lemma empty_user_data_is_not_purged :
  let storage : gmap string string :=
    {[ "auth_token" := "mock-jwt-token-1"; "user_data" := EmptyString ]} in
  let storage' : gmap string string :=
    {[ "auth_token" := EmptyString; "user_data" := "{bad" ]} in
  (JSON.parse EmptyString = None
   ∧ localStorage (restore (startup storage)).2 !! "auth_token"
     = Some "mock-jwt-token-1"
   ∧ localStorage (restore (startup storage)).2 !! "user_data"
     = Some EmptyString)
  ∧ (JSON.parse "{bad" = None
     ∧ localStorage (restore (startup storage')).2 !! "auth_token"
       = Some EmptyString
     ∧ localStorage (restore (startup storage')).2 !! "user_data"
       = Some "{bad").
Proof. vm_compute. done. Qed.

(** C5. From every world, [logout] completes without throwing, leaves the
    state [{user: null, token: null, isAuthenticated: false,
    isLoading: false}], leaves both storage keys absent and every other
    key as it was, and makes no call to the backend. *)
Theorem logout_resets_session (w : World) :
  (logout w).1 = Normal ()
  ∧ state (logout w).2
    = {| user := JNull; token := None;
         isLoading := false; isAuthenticated := false |}
  ∧ localStorage (logout w).2 !! "auth_token" = None
  ∧ localStorage (logout w).2 !! "user_data" = None
  ∧ (∀ k, k ≠ "auth_token" → k ≠ "user_data" →
          localStorage (logout w).2 !! k = localStorage w !! k)
  ∧ backend_log (logout w).2 = backend_log w.
Proof.
  run. repeat split.
  - by rewrite lookup_delete_ne, lookup_delete_eq.
  - by rewrite lookup_delete_eq.
  - intros k H1 H2. by rewrite !lookup_delete_ne.
Qed.

Lemma logout_resets_session_witness :
  let d := {| now := 1700000000000; iso := "2023-11-14T22:13:20.000Z" |} in
  let c := {| login_email := "user@example.com"; login_password := "password123" |} in
  let w := (login d c (startup ∅)).2 in
  isAuthenticated (state w) = true
  ∧ state (logout w).2
    = {| user := JNull; token := None;
         isLoading := false; isAuthenticated := false |}.
Proof.
  intros d c w. split; [vm_compute; reflexivity |].
  apply (logout_resets_session w).
Defined.

(** C6, amended.  When the backend login call fails, [login] leaves
    [user], [token] and [isAuthenticated] as they were before the call,
    leaves [isLoading] false and the storage unchanged, and throws the
    error of the backend to its caller. *)
Theorem login_failure_rethrows (w : World) (d : DateReading)
    (credentials : LoginCredentials) (err : Error)
    (Hfail : (mockAPI_login d credentials w).1 = Throw err) :
  (login d credentials w).1 = Throw err
  ∧ state (login d credentials w).2
    = {| user := user (state w); token := token (state w);
         isLoading := false; isAuthenticated := isAuthenticated (state w) |}
  ∧ localStorage (login d credentials w).2 = localStorage w.
Proof.
  apply mockAPI_login_rejects in Hfail as [Hrej ->].
  run. rewrite Hrej. simpl. done.
Qed.

Lemma login_failure_rethrows_witness :
  let d := {| now := 1700000000000; iso := "2023-11-14T22:13:20.000Z" |} in
  let c := {| login_email := "user@example.com"; login_password := "wrong" |} in
  (login d c (startup ∅)).1 = Throw {| message := "Invalid credentials" |}
  ∧ state (login d c (startup ∅)).2
    = {| user := JNull; token := None;
         isLoading := false; isAuthenticated := false |}
  ∧ localStorage (login d c (startup ∅)).2 = ∅.
Proof.
  intros d c.
  apply (login_failure_rethrows (startup ∅) d c {| message := "Invalid credentials" |}).
  reflexivity.
Defined.

(** C6 as stated fails: a failed [login] in a world that is already
    authenticated leaves the store authenticated. *)
Lemma failed_login_keeps_authenticated_session :
  let d := {| now := 1700000000000; iso := "2023-11-14T22:13:20.000Z" |} in
  let good := {| login_email := "user@example.com"; login_password := "password123" |} in
  let bad := {| login_email := "user@example.com"; login_password := "wrong" |} in
  let w := (login d good (startup ∅)).2 in
  (mockAPI_login d bad w).1 = Throw {| message := "Invalid credentials" |}
  ∧ (login d bad w).1 = Throw {| message := "Invalid credentials" |}
  ∧ isAuthenticated (state (login d bad w).2) = true
  ∧ isLoading (state (login d bad w).2) = false.
Proof. vm_compute. done. Qed.

(** C9. [useAuth] throws 'useAuth must be used within an AuthProvider'
    when no provider value is installed, and it never returns a default:
    what it returns is the value of the innermost provider, which under
    [AuthProvider] is the current state with the four operations. *)
Theorem useAuth_requires_provider :
  useAuth [] = Throw {| message := "useAuth must be used within an AuthProvider" |}
  ∧ (∀ providers,
       useContext AuthContext_default providers = None ↔
       useAuth providers
       = Throw {| message := "useAuth must be used within an AuthProvider" |})
  ∧ (∀ providers context,
       useAuth providers = Normal context ↔
       useContext AuthContext_default providers = Some context)
  ∧ (∀ st outer,
       useAuth (Some (AuthProvider_value st) :: outer)
       = Normal (AuthProvider_value st)
       ∧ ctx_state (AuthProvider_value st) = st
       ∧ ctx_login (AuthProvider_value st) = login
       ∧ ctx_signup (AuthProvider_value st) = signup
       ∧ ctx_loginWithGoogle (AuthProvider_value st) = loginWithGoogle
       ∧ ctx_logout (AuthProvider_value st) = logout).
Proof.
  split; [reflexivity |]. split; [| split].
  - intros providers. unfold useAuth.
    destruct (useContext AuthContext_default providers); split; congruence.
  - intros providers context. unfold useAuth.
    destruct (useContext AuthContext_default providers); split; congruence.
  - intros st outer. repeat split.
Qed.

End AuthTheory.

(** ** JSON text written by [stringify] is read back by [parse] *)

Module RoundTrip.
Import JSON Stringify Loops.

Lemma app_cons (a : ascii) (s t : string) : String a s +:+ t = String a (s +:+ t).
Proof. reflexivity. Qed.

Lemma app_empty (t : string) : EmptyString +:+ t = t.
Proof. reflexivity. Qed.












Import Auth Objects.







End RoundTrip.



(** ** More on the session store *)

Module AuthMore.
Import JSON Auth AuthTheory RoundTrip.

Ltac run_all :=
  unfold restore, login, signup, loginWithGoogle, logout, store_session,
    mockAPI_login, mockAPI_signup, mockAPI_googleLogin, JSON_parse,
    try_catch, throw, dispatch, getItem, setItem, removeItem, record_call,
    startup;
  unfold mbind, M_bind, mret, M_ret; simpl.

(** The state a sign-in leaves for a backend response. *)
Lemma store_session_result (response : AuthResponse) (w : World) :
  store_session response w
  = (Normal (),
     {| state := {| user := user_value (response_user response);
                    token := Some (response_token response);
                    isLoading := false; isAuthenticated := true |};
        localStorage :=
          <["user_data" := Stringify.stringify (user_value (response_user response))]>
            (<["auth_token" := response_token response]> (localStorage w));
        backend_log := backend_log w |}).
Proof. reflexivity. Qed.







(** Each of the three sign-in functions ends with [isLoading = false] on
    every path and makes exactly one call to the backend. *)
Theorem sign_in_ends_loading_one_call (w : World) (d : DateReading)
    (lc : LoginCredentials) (sc : SignupCredentials) :
  (isLoading (state (login d lc w).2) = false
   ∧ backend_log (login d lc w).2 = call_login lc :: backend_log w)
  ∧ (isLoading (state (signup d sc w).2) = false
     ∧ backend_log (signup d sc w).2 = call_signup sc :: backend_log w)
  ∧ (isLoading (state (loginWithGoogle d w).2) = false
     ∧ backend_log (loginWithGoogle d w).2 = call_googleLogin :: backend_log w).
Proof.
  split; [| by repeat split].
  run_all.
  destruct (String.eqb (login_email lc) "user@example.com"
            && String.eqb (login_password lc) "password123"); by simpl.
Qed.

(** The three ways the mount effect can go. *)
Lemma restore_cases (w : World) :
  (∃ tok ud u,
     localStorage w !! "auth_token" = Some tok ∧ tok ≠ EmptyString
     ∧ localStorage w !! "user_data" = Some ud ∧ JSON.parse ud = Some u
     ∧ restore w
       = (Normal (),
          {| state := {| user := u; token := Some tok;
                         isLoading := false; isAuthenticated := true |};
             localStorage := localStorage w; backend_log := backend_log w |}))
  ∨ (∃ tok ud,
       localStorage w !! "auth_token" = Some tok
       ∧ localStorage w !! "user_data" = Some ud
       ∧ JSON.parse ud = None
       ∧ restore w
         = (Normal (),
            {| state := authReducer (state w) (SET_LOADING false);
               localStorage :=
                 delete "user_data" (delete "auth_token" (localStorage w));
               backend_log := backend_log w |}))
  ∨ ((∀ tok ud u,
        localStorage w !! "auth_token" = Some tok → tok ≠ EmptyString →
        localStorage w !! "user_data" = Some ud → JSON.parse ud ≠ Some u)
     ∧ restore w
       = (Normal (),
          {| state := authReducer (state w) (SET_LOADING false);
             localStorage := localStorage w; backend_log := backend_log w |})).
Proof.
  destruct (localStorage w !! "auth_token") as [tok|] eqn:Htok;
    [destruct (localStorage w !! "user_data") as [ud|] eqn:Hud |].
  - destruct (truthy tok) eqn:Ht; [destruct (truthy ud) eqn:Hu |].
    + destruct (JSON.parse ud) as [u|] eqn:Hp.
      * left. exists tok, ud, u. repeat split; try done.
        -- by apply truthy_true.
        -- apply (restore_parsed w tok ud u); done.
      * right; left. exists tok, ud. repeat split; try done.
        apply (restore_corrupt w tok ud); done.
    + right; right. split.
      * intros tok' ud' u _ _ [= <-] Hp%parse_Some_truthy. congruence.
      * apply restore_skipped. rewrite Htok, Hud, Ht, Hu. done.
    + right; right. split.
      * intros tok' ud' u [= <-] Hne%truthy_true. congruence.
      * apply restore_skipped. rewrite Htok, Hud, Ht. done.
  - right; right. split; [intros; congruence |].
    apply restore_skipped. by rewrite Htok, Hud.
  - right; right. split; [intros; congruence |].
    apply restore_skipped. by rewrite Htok.
Qed.

(** The mount effect never throws, whatever the storage holds.  It ends
    with [isLoading = false], calls no backend, and leaves the storage
    either as it was or without the two session keys; no other key is
    ever touched. *)
Theorem restore_never_throws (w : World) :
  (restore w).1 = Normal ()
  ∧ isLoading (state (restore w).2) = false
  ∧ backend_log (restore w).2 = backend_log w
  ∧ (localStorage (restore w).2 = localStorage w
     ∨ localStorage (restore w).2
       = delete "user_data" (delete "auth_token" (localStorage w)))
  ∧ (∀ k, k ≠ "auth_token" → k ≠ "user_data" →
          localStorage (restore w).2 !! k = localStorage w !! k).
Proof.
  destruct (restore_cases w)
    as [(tok & ud & u & _ & _ & _ & _ & ->)
       |[(tok & ud & _ & _ & _ & ->)|[_ ->]]]; simpl;
    repeat split; auto.
  intros k H1 H2. by rewrite !lookup_delete_ne.
Qed.

Lemma restore_never_throws_witness :
  let w := {| state := initialState;
              localStorage := {[ "auth_token" := "t"; "user_data" := "{bad";
                                 "theme" := "dark" ]};
              backend_log := [] |} in
  (restore w).1 = Normal ()
  ∧ localStorage (restore w).2 !! "theme" = Some "dark"
  ∧ localStorage (restore w).2 !! "auth_token" = None.
Proof.
  intros w. destruct (restore_never_throws w) as (H1 & _ & _ & _ & H5).
  split; [exact H1 |]. split; [| vm_compute; reflexivity].
  rewrite H5 by discriminate. vm_compute. reflexivity.
Defined.

(** A page load authenticates exactly when the storage holds a non-empty
    token and user data that [JSON.parse] accepts; the store then carries
    that token and the parsed value.  If either key is missing the store
    ends unauthenticated and the storage is left as it was. *)
Theorem restore_authenticates_iff (storage : gmap string string) :
  (isAuthenticated (state (restore (startup storage)).2) = true
   ↔ ∃ tok ud u,
       storage !! "auth_token" = Some tok ∧ tok ≠ EmptyString
       ∧ storage !! "user_data" = Some ud ∧ JSON.parse ud = Some u)
  ∧ (storage !! "auth_token" = None ∨ storage !! "user_data" = None →
     restore (startup storage)
     = (Normal (),
        {| state := {| user := JNull; token := None;
                       isLoading := false; isAuthenticated := false |};
           localStorage := storage; backend_log := [] |})).
Proof.
  split.
  - destruct (restore_cases (startup storage))
      as [(tok & ud & u & H1 & H2 & H3 & H4 & ->)
         |[(tok & ud & H1 & H2 & H3 & ->)|[Hno ->]]]; simpl in *.
    + split; [intros _ | done]. by exists tok, ud, u.
    + split; [done |]. intros (tok' & ud' & u & ? & _ & ? & ?). congruence.
    + split; [done |]. intros (tok' & ud' & u & ? & ? & ? & ?).
      by destruct (Hno tok' ud' u).
  - intros Hmiss. rewrite restore_skipped; [done |]. simpl.
    destruct Hmiss as [-> | H]; [done |]. rewrite H. by case_match.
Qed.

Lemma restore_authenticates_iff_witness :
  let storage : gmap string string := {[ "user_data" := "{}" ]} in
  restore (startup storage)
  = (Normal (),
     {| state := {| user := JNull; token := None;
                    isLoading := false; isAuthenticated := false |};
        localStorage := storage; backend_log := [] |}).
Proof.
  intros storage.
  destruct (restore_authenticates_iff storage) as [_ H].
  apply H. left. reflexivity.
Defined.

(** After [logout], a page load stays logged out: the mount effect finds
    no session, ends unauthenticated and not loading, and leaves the
    storage as [logout] left it. *)
Theorem logout_then_reload (w : World) :
  restore (startup (localStorage (logout w).2))
  = (Normal (),
     {| state := {| user := JNull; token := None;
                    isLoading := false; isAuthenticated := false |};
        localStorage := delete "user_data" (delete "auth_token" (localStorage w));
        backend_log := [] |}).
Proof.
  run_all. by rewrite lookup_delete_ne, lookup_delete_eq.
Qed.

(** A second page load changes nothing: the mount effect run on the
    storage that a first page load left ends in the same state and leaves
    that storage as it is. *)
Theorem reload_is_stable (storage : gmap string string) :
  let w1 := (restore (startup storage)).2 in
  let w2 := (restore (startup (localStorage w1))).2 in
  state w2 = state w1 ∧ localStorage w2 = localStorage w1.
Proof.
  cbv zeta.
  destruct (restore_cases (startup storage))
    as [(tok & ud & u & H1 & H2 & H3 & H4 & E)
       |[(tok & ud & H1 & H2 & H3 & E)|[Hno E]]]; rewrite E; simpl in *.
  - rewrite (restore_parsed _ tok ud u); try done. by apply truthy_true.
  - rewrite restore_skipped; [done |]. simpl.
    by rewrite lookup_delete_ne, lookup_delete_eq.
  - by rewrite E.
Qed.

End AuthMore.

(** ** More on regular expressions *)

Section RegExpMore.
Import RegExp RoundTrip.

Lemma test_Cat (r1 r2 : regex) (s : string) :
  test (Cat r1 r2) s = true
  ↔ ∃ s1 s2, s = s1 +:+ s2 ∧ test r1 s1 = true ∧ test r2 s2 = true.
Proof.
  revert r1 r2. induction s as [|c s IH]; intros r1 r2.
  - simpl. rewrite andb_true_iff. split.
    + intros [H1 H2]. by exists EmptyString, EmptyString.
    + intros (s1 & s2 & E & H1 & H2). destruct s1; [| discriminate].
      rewrite app_empty in E. by subst s2.
  - simpl. destruct (nullable r1) eqn:Hn.
    + rewrite test_Alt, orb_true_iff, IH. split.
      * intros [(s1 & s2 & -> & H1 & H2) | H].
        -- by exists (String c s1), s2.
        -- exists EmptyString, (String c s). by destruct r1.
      * intros (s1 & s2 & E & H1 & H2). destruct s1 as [|c' s1].
        -- right. rewrite app_empty in E. by subst s2.
        -- left. rewrite app_cons in E. injection E as -> ->. by exists s1, s2.
    + rewrite IH. split.
      * intros (s1 & s2 & -> & H1 & H2). by exists (String c s1), s2.
      * intros (s1 & s2 & E & H1 & H2). destruct s1 as [|c' s1].
        -- simpl in H1. congruence.
        -- rewrite app_cons in E. injection E as -> ->. by exists s1, s2.
Qed.

Lemma test_Star_Class (p : ascii → bool) (s : string) :
  test (Star (Class p)) s = all_chars p s.
Proof.
  induction s as [|c s IH]; [done |]. simpl.
  destruct (p c); simpl; [by rewrite test_Cat_Eps | apply test_Cat_Void].
Qed.

(** [/^[p]+$/] accepts the non-empty strings of characters in [p]. *)
Lemma test_plus_Class (p : ascii → bool) (s : string) :
  test (plus (Class p)) s = truthy s && all_chars p s.
Proof.
  destruct s as [|c s]; [done |]. unfold plus.
  by rewrite test_Cat_Class, test_Star_Class.
Qed.

Lemma test_chr (a : ascii) (s : string) :
  test (chr a) s = true ↔ s = String a EmptyString.
Proof.
  destruct s as [|c s]; simpl; [done |]. unfold chr.
  destruct (Ascii.eqb a c) eqn:E.
  - apply Ascii.eqb_eq in E as ->. destruct s; simpl; [done |].
    rewrite test_Void. split; [done | by intros [=]].
  - rewrite test_Void. apply Ascii.eqb_neq in E. split; [done |].
    intros [= -> _]. done.
Qed.

End RegExpMore.

(** ** More on the application form *)

Module FormMore.
Import RegExp Form Drafts FormTheory RoundTrip.

(** *** Filters and trimming *)

Lemma all_chars_remove_class (p : ascii → bool) (s : string) :
  all_chars p (remove_class (λ c, negb (p c)) s) = true.
Proof.
  induction s as [|c s IH]; [done |]. simpl.
  destruct (p c) eqn:Hc; simpl; [by rewrite Hc |]; done.
Qed.

Lemma all_chars_slice0 (p : ascii → bool) (n : nat) (s : string) :
  all_chars p s = true → all_chars p (slice0 n s) = true.
Proof.
  revert s. induction n as [|n IH]; intros [|c s]; simpl; try done.
  intros [Hc Hs]%andb_true_iff. rewrite Hc. by apply IH.
Qed.

Lemma length_slice0 (n : nat) (s : string) :
  String.length (slice0 n s) = n `min` String.length s.
Proof.
  revert s. induction n as [|n IH]; intros [|c s]; simpl; try done.
  by rewrite IH.
Qed.

Lemma length_remove_nondigits (s : string) :
  String.length (remove_class (λ c, negb (is_digit c)) s) = count_digits s.
Proof.
  induction s as [|c s IH]; [done |]. simpl.
  destruct (is_digit c); simpl; by rewrite IH.
Qed.

Lemma all_chars_trimStart (p : ascii → bool) (s : string) :
  all_chars p s = true → all_chars p (trimStart s) = true.
Proof.
  induction s as [|c s IH]; [done |]. simpl.
  intros H. destruct (is_space c); [| done].
  apply andb_true_iff in H as [_ H]. by apply IH.
Qed.

Lemma all_chars_trimEnd (p : ascii → bool) (s : string) :
  all_chars p s = true → all_chars p (trimEnd s) = true.
Proof.
  induction s as [|c s IH]; [done |]. simpl.
  intros [Hc Hs]%andb_true_iff. specialize (IH Hs).
  destruct (trimEnd s) as [|c' s'].
  - destruct (is_space c); simpl; [done | by rewrite Hc].
  - simpl in *. by rewrite Hc.
Qed.

Lemma all_chars_trim (p : ascii → bool) (s : string) :
  all_chars p s = true → all_chars p (trim s) = true.
Proof. intros H. by apply all_chars_trimEnd, all_chars_trimStart. Qed.

(** *** The three validators *)

(** [validateEmail] accepts exactly the strings [local@domain.tld] whose
    three parts are non-empty and hold neither white space nor [@]. *)
Theorem validateEmail_shape (s : string) :
  validateEmail s = true
  ↔ ∃ a b c,
      s = a +:+ "@" +:+ b +:+ "." +:+ c
      ∧ a ≠ EmptyString ∧ b ≠ EmptyString ∧ c ≠ EmptyString
      ∧ all_chars email_char a = true
      ∧ all_chars email_char b = true
      ∧ all_chars email_char c = true.
Proof.
  unfold validateEmail, emailRegex. rewrite test_Cat. split.
  - intros (a & s1 & -> & Ha & H1).
    apply test_Cat in H1 as (x & s2 & -> & Hx & H2).
    apply test_Cat in H2 as (b & s3 & -> & Hb & H3).
    apply test_Cat in H3 as (y & c & -> & Hy & Hc).
    apply test_chr in Hx as ->. apply test_chr in Hy as ->.
    rewrite test_plus_Class, andb_true_iff, truthy_true in Ha, Hb, Hc.
    exists a, b, c. destruct Ha, Hb, Hc. done.
  - intros (a & b & c & -> & Ha & Hb & Hc & Ha' & Hb' & Hc').
    exists a, ("@" +:+ b +:+ "." +:+ c). split; [done |]. split.
    { rewrite test_plus_Class, andb_true_iff, truthy_true. done. }
    apply test_Cat. exists "@", (b +:+ "." +:+ c). split; [done |].
    split; [by apply test_chr |].
    apply test_Cat. exists b, ("." +:+ c). split; [done |]. split.
    { rewrite test_plus_Class, andb_true_iff, truthy_true. done. }
    apply test_Cat. exists ".", c. split; [done |].
    split; [by apply test_chr |].
    rewrite test_plus_Class, andb_true_iff, truthy_true. done.
Qed.

(** [validateFullName] accepts exactly the names that, once trimmed, have
    at least two characters, all of them letters, white space, hyphens or
    apostrophes.  For a name typed into the form, whose other characters
    the input handler has removed, only the length is left to check. *)
Theorem validateFullName_shape (s : string) (e : ChangeEvent) (prev : FormData) :
  (validateFullName s = true
   ↔ (2 ≤ String.length (trim s))%nat ∧ all_chars name_char (trim s) = true)
  ∧ (name e = "fullName" → type e ≠ "checkbox" →
     let stored := fullName (handleInputChange_formData e prev) in
     stored = remove_class (λ c, negb (name_char c)) (value e)
     ∧ all_chars name_char stored = true
     ∧ (validateFullName stored = true ↔ (2 ≤ String.length (trim stored))%nat)).
Proof.
  assert (∀ s, validateFullName s = true
            ↔ (2 ≤ String.length (trim s))%nat
              ∧ all_chars name_char (trim s) = true) as Hshape.
  { intros s'. unfold validateFullName, nameRegex.
    rewrite test_plus_Class, !andb_true_iff, Nat.leb_le. split.
    - by intros [[_ Hall] Hlen].
    - intros [Hlen Hall]. repeat split; try done.
      destruct (trim s'); [simpl in Hlen; lia | done]. }
  split; [apply Hshape |].
  intros Hname Htype. cbv zeta.
  assert (fullName (handleInputChange_formData e prev)
          = remove_class (λ c, negb (name_char c)) (value e)) as ->.
  { unfold handleInputChange_formData.
    apply String.eqb_neq in Htype. rewrite Htype, Hname. reflexivity. }
  split; [done |]. split; [apply all_chars_remove_class |].
  rewrite Hshape. split; [by intros [Hlen _] |]. intros Hlen. split; [done |].
  apply all_chars_trim, all_chars_remove_class.
Qed.

Lemma validateFullName_shape_witness :
  let e := {| name := "fullName"; value := "J0hn 3rd"; type := "text";
              checked := false |} in
  let stored := fullName (handleInputChange_formData e (initialFormData None)) in
  stored = "Jhn rd" ∧ validateFullName stored = true.
Proof.
  intros e stored.
  destruct (validateFullName_shape EmptyString e (initialFormData None))
    as [_ H].
  destruct H as (Hs & _ & Hv); [reflexivity | discriminate |].
  split; [exact Hs |]. apply Hv. vm_compute. lia.
Defined.

(** The phone number stored for a typed string passes [validatePhone]
    exactly when the string holds at least ten digits; what is stored is
    never more than ten characters and never anything but digits. *)
Theorem typed_phone_valid_iff (e : ChangeEvent) (prev : FormData)
    (Hname : name e = "phone") (Htype : type e ≠ "checkbox") :
  let stored := phone (handleInputChange_formData e prev) in
  all_chars is_digit stored = true
  ∧ String.length stored = 10 `min` count_digits (value e)
  ∧ (validatePhone stored = true ↔ (10 ≤ count_digits (value e))%nat).
Proof.
  cbv zeta. rewrite handleInputChange_phone by done.
  assert (all_chars is_digit
            (slice0 10 (remove_class (λ c, negb (is_digit c)) (value e))) = true)
    as Hall by apply all_chars_slice0, all_chars_remove_class.
  split; [exact Hall |].
  rewrite validatePhone_spec. unfold spec_ten_digits.
  rewrite length_slice0, length_remove_nondigits.
  split; [done |]. split; [lia |]. intros H. split; [lia | done].
Qed.

Lemma typed_phone_valid_iff_witness :
  let e := {| name := "phone"; value := "(040) 123-4567 ext 89"; type := "tel";
              checked := false |} in
  phone (handleInputChange_formData e (initialFormData None)) = "0401234567"
  ∧ validatePhone (phone (handleInputChange_formData e (initialFormData None)))
    = true.
Proof.
  intros e. split; [reflexivity |].
  destruct (typed_phone_valid_iff e (initialFormData None)) as (_ & _ & H).
  - reflexivity.
  - discriminate.
  - apply H. vm_compute. lia.
Defined.

(** *** Slot by slot *)

Ltac peel_frames :=
  repeat first
    [ rewrite check_declaration_frame by done
    | rewrite check_skills_frame by done
    | rewrite check_currentCompany_frame by done
    | rewrite check_employmentStatus_frame by done
    | rewrite check_experience_frame by done
    | rewrite check_phone_frame by done
    | rewrite check_email_frame by done
    | rewrite check_fullName_frame by done ].

Lemma validateFullName_truthy (s : string) :
  validateFullName s = true → truthy (trim s) = true.
Proof.
  unfold validateFullName. intros [_ H]%andb_true_iff.
  apply Nat.leb_le in H. destruct (trim s); [simpl in H; lia | done].
Qed.

Lemma validateEmail_truthy (s : string) :
  validateEmail s = true → truthy (trim s) = true.
Proof.
  unfold validateEmail, emailRegex. intros (a & r & -> & Ha & _)%test_Cat.
  rewrite test_plus_Class in Ha. apply andb_true_iff in Ha as [Hne Hall].
  destruct a as [|c a]; [done |]. simpl in Hall.
  apply andb_true_iff in Hall as [Hc _]. unfold email_char in Hc.
  apply negb_true_iff, orb_false_iff in Hc as [Hc _].
  apply truthy_true. rewrite trim_empty, app_cons. simpl. by rewrite Hc.
Qed.

Lemma fullName_slot_None fd :
  validateForm_errors fd !! "fullName" = None
  ↔ validateFullName (fullName fd) = true.
Proof.
  unfold validateForm_errors. cbv zeta. peel_frames. unfold check_fullName.
  destruct (validateFullName (fullName fd)) eqn:Hv.
  - rewrite (validateFullName_truthy _ Hv). simpl. by rewrite lookup_empty.
  - destruct (truthy (trim (fullName fd))); simpl;
      rewrite lookup_set_error_eq; split; discriminate.
Qed.

Lemma email_slot_None fd :
  validateForm_errors fd !! "email" = None ↔ validateEmail (email fd) = true.
Proof.
  unfold validateForm_errors. cbv zeta. peel_frames. unfold check_email.
  destruct (validateEmail (email fd)) eqn:Hv.
  - rewrite (validateEmail_truthy _ Hv). simpl. peel_frames.
    by rewrite lookup_empty.
  - destruct (truthy (trim (email fd))); simpl;
      rewrite lookup_set_error_eq; split; discriminate.
Qed.

Lemma experience_slot_None fd :
  validateForm_errors fd !! "experience" = None
  ↔ employmentStatus fd ≠ EmptyString
    ∧ ∃ n, parseInt (experience fd) = Some n ∧ (0 ≤ n)%Z.
Proof.
  rewrite experience_slot. unfold check_employmentStatus.
  destruct (truthy (employmentStatus fd)) eqn:Hst; simpl.
  - apply truthy_true in Hst. unfold check_experience.
    destruct (truthy (trim (experience fd))) eqn:Htrim; simpl.
    + destruct (parseInt (experience fd)) as [n|]; simpl.
      * rewrite orb_false_r. destruct (n <? 0)%Z eqn:Hn.
        -- rewrite lookup_set_error_eq. apply Z.ltb_lt in Hn.
           split; [discriminate |]. intros (_ & n' & [= <-] & Hge). lia.
        -- apply Z.ltb_ge in Hn. split; [| done]. intros _.
           split; [done |]. by exists n.
      * rewrite lookup_set_error_eq. split; [discriminate |].
        by intros (_ & n & ? & _).
    + rewrite lookup_set_error_eq. split; [discriminate |].
      intros (_ & n & Hp & _). apply truthy_false, trim_empty in Htrim.
      rewrite (parseInt_blank _ Htrim) in Hp. discriminate.
  - apply truthy_false in Hst. rewrite lookup_set_error_eq.
    split; [discriminate | by intros [? _]].
Qed.

Lemma currentCompany_slot_None fd :
  validateForm_errors fd !! "currentCompany" = None
  ↔ (employmentStatus fd = "yes" → trim (currentCompany fd) ≠ EmptyString).
Proof.
  unfold validateForm_errors. cbv zeta. peel_frames.
  unfold check_currentCompany.
  destruct (String.eqb (employmentStatus fd) "yes") eqn:Hyes.
  - apply String.eqb_eq in Hyes.
    destruct (truthy (trim (currentCompany fd))) eqn:Ht; simpl.
    + peel_frames. rewrite lookup_empty. apply truthy_true in Ht.
      split; done.
    + rewrite lookup_set_error_eq. apply truthy_false in Ht.
      split; [discriminate |]. intros H. by destruct (H Hyes).
  - apply String.eqb_neq in Hyes. simpl. peel_frames. rewrite lookup_empty.
    split; done.
Qed.

Lemma skills_slot_None fd :
  validateForm_errors fd !! "skills" = None ↔ skills fd ≠ [].
Proof.
  unfold validateForm_errors. cbv zeta. peel_frames. unfold check_skills.
  destruct (skills fd) as [|sk sks]; simpl.
  - rewrite lookup_set_error_eq. split; [discriminate | done].
  - peel_frames. rewrite lookup_empty. split; done.
Qed.

Lemma declaration_slot_None fd :
  validateForm_errors fd !! "declaration" = None ↔ declaration fd = true.
Proof.
  unfold validateForm_errors. cbv zeta. unfold check_declaration.
  destruct (declaration fd); simpl.
  - peel_frames. rewrite lookup_empty. split; done.
  - rewrite lookup_set_error_eq. split; discriminate.
Qed.

Lemma valid_draft_slots fd :
  valid_draft fd ↔ ∀ k, k ∈ error_keys → validateForm_errors fd !! k = None.
Proof.
  unfold valid_draft, error_keys. split.
  - intros (H1 & H2 & H3 & H4 & H5 & H6 & H7 & H8) k Hk.
    repeat (apply elem_of_cons in Hk as [-> | Hk]).
    + by apply fullName_slot_None.
    + by apply email_slot_None.
    + by apply phone_slot_None.
    + by apply experience_slot_None.
    + by apply currentCompany_slot_None.
    + by apply skills_slot_None.
    + by apply declaration_slot_None.
    + by apply elem_of_nil in Hk.
  - intros H.
    assert (∀ k, k ∈ error_keys → validateForm_errors fd !! k = None) as H'
      by exact H.
    pose proof (proj1 (experience_slot_None fd)) as He.
    destruct He as [He1 He2]; [apply H; repeat constructor |].
    repeat split.
    + apply fullName_slot_None, H. repeat constructor.
    + apply email_slot_None, H. repeat constructor.
    + apply phone_slot_None, H. repeat constructor.
    + exact He2.
    + exact He1.
    + apply currentCompany_slot_None, H. repeat constructor.
    + apply skills_slot_None, H. repeat constructor.
    + apply declaration_slot_None, H. repeat constructor.
Qed.

(** A block writes nothing but its own slot, so the final object has no
    key outside the declared ones. *)
Lemma validateForm_errors_keys fd k :
  k ∉ error_keys → validateForm_errors fd !! k = None.
Proof.
  unfold error_keys. intros Hk.
  assert (k ≠ "fullName" ∧ k ≠ "email" ∧ k ≠ "phone" ∧ k ≠ "experience"
          ∧ k ≠ "currentCompany" ∧ k ≠ "skills" ∧ k ≠ "declaration")
    as (? & ? & ? & ? & ? & ? & ?) by (repeat split; intros ->; apply Hk; repeat constructor).
  unfold validateForm_errors. cbv zeta.
  by rewrite check_declaration_frame, check_skills_frame,
    check_currentCompany_frame, check_employmentStatus_frame,
    check_experience_frame, check_phone_frame, check_email_frame,
    check_fullName_frame by done.
Qed.

Lemma validateForm_errors_empty_iff fd :
  validateForm_errors fd = ∅ ↔ valid_draft fd.
Proof.
  rewrite valid_draft_slots. split.
  - intros -> k _. apply lookup_empty.
  - intros H. apply map_eq. intros k. rewrite lookup_empty.
    destruct (decide (k ∈ error_keys)); [by apply H |].
    by apply validateForm_errors_keys.
Qed.

(** *** Submission *)

(** [validateForm] answers true exactly for the drafts that pass every
    check: a valid name, email and phone, an experience that [parseInt]
    reads as a number not below zero, an employment status, a company when
    the status is yes, at least one skill and the declaration. *)
Theorem validateForm_true_iff_valid (s : FormState) :
  (validateForm s).1 = true ↔ valid_draft (formData s).
Proof.
  unfold validateForm. simpl. rewrite Nat.eqb_eq, map_size_empty_iff.
  apply validateForm_errors_empty_iff.
Qed.

(** [handleSubmit] never changes the draft and always ends with
    [isSubmitting = false].  A valid draft is marked submitted with an
    empty error object; an invalid one leaves the submitted flag as it was
    and the error object non-empty. *)
Theorem handleSubmit_outcome (s : FormState) :
  formData (handleSubmit s) = formData s
  ∧ isSubmitting (handleSubmit s) = false
  ∧ (valid_draft (formData s) →
     isSubmitted (handleSubmit s) = true ∧ errors (handleSubmit s) = ∅)
  ∧ (¬ valid_draft (formData s) →
     isSubmitted (handleSubmit s) = isSubmitted s
     ∧ errors (handleSubmit s) ≠ ∅).
Proof.
  unfold handleSubmit, validateForm. simpl. repeat split.
  - apply validateForm_errors_empty_iff in H. by rewrite H.
  - by apply validateForm_errors_empty_iff.
  - destruct (size (validateForm_errors (formData s)) =? 0)%nat eqn:E; [| done].
    apply Nat.eqb_eq, map_size_empty_iff, validateForm_errors_empty_iff in E.
    done.
  - by rewrite validateForm_errors_empty_iff.
Qed.

Lemma handleSubmit_outcome_witness :
  let fd := {| fullName := "Ann Lee"; email := "ann@example.com";
               phone := "1234567890"; experience := "5";
               employmentStatus := "no"; currentCompany := EmptyString;
               skills := ["SQL"]; declaration := true |} in
  let s := {| formData := fd; errors := ∅; isSubmitting := false;
              isSubmitted := false |} in
  isSubmitted (handleSubmit s) = true ∧ errors (handleSubmit s) = ∅.
Proof.
  intros fd s.
  destruct (handleSubmit_outcome s) as (_ & _ & H & _). apply H.
  apply validateForm_errors_empty_iff. vm_compute. reflexivity.
Defined.

(** *** Skills *)

Lemma existsb_eqb_elem (x : string) (l : list string) :
  existsb (String.eqb x) l = true ↔ x ∈ l.
Proof.
  rewrite existsb_exists, list_elem_of_In. split.
  - by intros (y & Hy & ->%String.eqb_eq).
  - intros H. exists x. by rewrite String.eqb_refl.
Qed.

Lemma elem_of_filter_neq (x y : string) (l : list string) :
  y ∈ List.filter (λ s, negb (String.eqb s x)) l ↔ y ∈ l ∧ y ≠ x.
Proof.
  rewrite !list_elem_of_In, filter_In, negb_true_iff, String.eqb_neq. done.
Qed.

Lemma toggle_skill_elem (skill x : string) (fd : FormData) :
  x ∈ skills (toggle_skill skill fd)
  ↔ (x = skill ∧ skill ∉ skills fd) ∨ (x ≠ skill ∧ x ∈ skills fd).
Proof.
  simpl. destruct (existsb (String.eqb skill) (skills fd)) eqn:E.
  - apply existsb_eqb_elem in E. rewrite elem_of_filter_neq. split.
    + intros [? ?]. by right.
    + intros [[-> ?] | [? ?]]; done.
  - assert (skill ∉ skills fd) as Hno.
    { intros H%existsb_eqb_elem. congruence. }
    rewrite elem_of_app, list_elem_of_singleton. split.
    + intros [H | ->]; [right | by left]. split; [| done]. by intros ->.
    + intros [[-> _] | [_ ?]]; [by right | by left].
Qed.

Lemma toggle_skill_NoDup (skill : string) (fd : FormData) :
  NoDup (skills fd) → NoDup (skills (toggle_skill skill fd)).
Proof.
  intros Hnd. simpl. destruct (existsb (String.eqb skill) (skills fd)) eqn:E.
  - apply NoDup_ListNoDup, List.NoDup_filter. by apply NoDup_ListNoDup.
  - apply NoDup_app. split; [done |]. split; [| apply NoDup_singleton].
    intros x Hx ->%list_elem_of_singleton.
    apply existsb_eqb_elem in Hx. congruence.
Qed.

(** Ticking a skill box flips the membership of that skill in the draft
    and of no other; ticking it twice leaves every membership as it was;
    and a list of skills without duplicates stays so. *)
Theorem toggle_skill_membership (skill : string) (fd : FormData) :
  (skill ∈ skills (toggle_skill skill fd) ↔ skill ∉ skills fd)
  ∧ (∀ x, x ≠ skill → x ∈ skills (toggle_skill skill fd) ↔ x ∈ skills fd)
  ∧ (∀ x, x ∈ skills (toggle_skill skill (toggle_skill skill fd))
          ↔ x ∈ skills fd)
  ∧ (NoDup (skills fd) → NoDup (skills (toggle_skill skill fd))).
Proof.
  split; [| split; [| split]].
  - rewrite toggle_skill_elem. split.
    + by intros [[_ ?] | [? _]].
    + intros ?. by left.
  - intros x Hx. rewrite toggle_skill_elem. split.
    + by intros [[? _] | [_ ?]].
    + intros ?. by right.
  - intros x. rewrite !toggle_skill_elem.
    destruct (decide (x = skill)) as [-> | Hne];
      destruct (decide (skill ∈ skills fd)); split; intros H;
      repeat match goal with
        | H : _ ∨ _ |- _ => destruct H
        | H : _ ∧ _ |- _ => destruct H
        end; try done.
    + left. split; [done |]. intros [[_ ?] | [? _]]; done.
    + exfalso. match goal with H : ¬ _ |- _ => apply H end. by left.
    + right. split; [done |]. by right.
    + right. split; [done |]. by right.
  - apply toggle_skill_NoDup.
Qed.

Lemma toggle_skill_membership_witness :
  let fd := toggle_skill "SQL" (toggle_skill "React" (initialFormData None)) in
  skills fd = ["React"; "SQL"]
  ∧ NoDup (skills (toggle_skill "React" fd))
  ∧ skills (toggle_skill "React" fd) = ["SQL"].
Proof.
  intros fd. split; [reflexivity |]. split; [| reflexivity].
  destruct (toggle_skill_membership "React" fd) as (_ & _ & _ & H).
  apply H. apply (bool_decide_unpack (NoDup (skills fd))). vm_compute. exact I.
Defined.

(** *** What the inputs let into a draft *)

Lemma rendered_cases (e : ChangeEvent) :
  rendered e = true →
  (name e = "fullName" ∧ type e = "text")
  ∨ (name e = "email" ∧ type e = "email")
  ∨ (name e = "phone" ∧ type e = "tel")
  ∨ (name e = "experience" ∧ type e = "text")
  ∨ (name e = "employmentStatus" ∧ type e = "radio"
     ∧ (value e = "yes" ∨ value e = "no"))
  ∨ (name e = "currentCompany" ∧ type e = "text")
  ∨ (name e = "skills" ∧ type e = "checkbox" ∧ value e ∈ skillOptions)
  ∨ (name e = "declaration" ∧ type e = "checkbox").
Proof.
  unfold rendered.
  repeat (rewrite orb_true_iff || rewrite andb_true_iff || rewrite String.eqb_eq).
  rewrite existsb_eqb_elem. tauto.
Qed.

Lemma typed_draft_initial (user_email : option string) :
  typed_draft (initialFormData user_email) ∧ skills_ok (initialFormData user_email).
Proof.
  unfold typed_draft, skills_ok. simpl. repeat split; auto.
  - lia.
  - apply NoDup_nil_2.
  - intros skill H. by apply elem_of_nil in H.
Qed.

Lemma typed_draft_change (e : ChangeEvent) (fd : FormData) :
  rendered e = true → typed_draft fd ∧ skills_ok fd →
  typed_draft (handleInputChange_formData e fd)
  ∧ skills_ok (handleInputChange_formData e fd).
Proof.
  intros Hr [(Hn & Hp & Hl & Hx & Hs) [Hnd Hsub]].
  destruct e as [n v t ch].
  apply rendered_cases in Hr; simpl in Hr.
  unfold typed_draft, skills_ok.
  destruct Hr as [[-> ->]|[[-> ->]|[[-> ->]|[[-> ->]|[(-> & -> & Hv)
    |[[-> ->]|[(-> & -> & Hv)|[-> ->]]]]]]]];
    unfold handleInputChange_formData; cbn -[slice0 toggle_skill];
    repeat split; auto.
  - apply all_chars_remove_class.
  - apply all_chars_slice0, all_chars_remove_class.
  - rewrite length_slice0. lia.
  - apply all_chars_remove_class.
  - by apply (toggle_skill_NoDup v fd).
  - intros skill Hin.
    apply (toggle_skill_elem v skill fd) in Hin as [[-> _] | [_ Hin]]; auto.
Qed.

Lemma typed_draft_reachable (user_email : option string) (s : FormState) :
  reachable user_email s → typed_draft (formData s) ∧ skills_ok (formData s).
Proof.
  induction 1 as [|e s _ IH Hr|s _ IH|s _ IH]; simpl.
  - apply typed_draft_initial.
  - by apply typed_draft_change.
  - exact IH.
  - apply typed_draft_initial.
Qed.

(** In every state the form can reach, the full name holds only letters,
    white space, hyphens and apostrophes, the phone at most ten digits and
    nothing else, the experience only digits, the employment status is
    unset, yes or no, and the skills are distinct entries of the
    catalogue, hence at most five. *)
Theorem reachable_draft_well_formed (user_email : option string) (s : FormState)
    (Hreach : reachable user_email s) :
  typed_draft (formData s) ∧ skills_ok (formData s)
  ∧ (length (skills (formData s)) ≤ 5)%nat.
Proof.
  destruct (typed_draft_reachable _ _ Hreach) as [Ht [Hnd Hsub]].
  split; [exact Ht |]. split; [by split |].
  change 5%nat with (length skillOptions).
  apply submseteq_length, NoDup_submseteq; [exact Hnd |].
  exact Hsub.
Qed.

Lemma reachable_draft_well_formed_witness :
  let type_in n v :=
    handleInputChange {| name := n; value := v; type := "text"; checked := false |} in
  let s := type_in "experience" "7 years"
             (type_in "fullName" "Ann-Marie O'Neil 2nd" (initialFormState None)) in
  fullName (formData s) = "Ann-Marie O'Neil nd"
  ∧ experience (formData s) = "7"
  ∧ typed_draft (formData s).
Proof.
  intros type_in s. split; [reflexivity |]. split; [reflexivity |].
  apply (reachable_draft_well_formed None s).
  apply reach_change; [apply reach_change; [apply reach_initial |] |];
    reflexivity.
Defined.

(** *** Experience, as the inputs can leave it *)

Lemma is_digit_range (c : ascii) :
  is_digit c = true → (48 ≤ Z.of_N (code c) ≤ 57)%Z.
Proof.
  unfold is_digit. cbv zeta.
  intros [H1%N.leb_le H2%N.leb_le]%andb_true_iff. lia.
Qed.

Lemma radix_digit_decimal (c : ascii) :
  is_digit c = true → ∃ d, radix_digit 10 c = Some d ∧ (0 ≤ d)%Z.
Proof.
  intros H. pose proof (is_digit_range c H) as Hr.
  unfold radix_digit, digit_value. cbv zeta. rewrite H.
  exists (Z.of_N (code c) - 48)%Z.
  assert ((Z.of_N (code c) - 48 <? 10)%Z = true) as -> by (apply Z.ltb_lt; lia).
  split; [done | lia].
Qed.

Lemma digits_prefix_digits (s : string) (acc : Z) :
  all_chars is_digit s = true → (0 ≤ acc)%Z →
  ∃ n, digits_prefix 10 (Some acc) s = Some n ∧ (0 ≤ n)%Z.
Proof.
  revert acc. induction s as [|c s IH]; intros acc Hall Hacc; simpl.
  - by exists acc.
  - apply andb_true_iff in Hall as [Hc Hs].
    destruct (radix_digit_decimal c Hc) as (d & -> & Hd).
    apply IH; [done |]. simpl. lia.
Qed.

Lemma strip_sign_digit (c : ascii) (r : string) :
  is_digit c = true → strip_sign (String c r) = (1%Z, String c r).
Proof.
  intros H. destruct c as [[] [] [] [] [] [] [] []]; vm_compute in H;
    try discriminate; reflexivity.
Qed.

Lemma strip_hex_prefix_digits (s : string) :
  all_chars is_digit s = true → strip_hex_prefix s = (10%Z, s).
Proof.
  destruct s as [|c r]; [done |]. simpl all_chars.
  intros [Hc Hr]%andb_true_iff.
  destruct c as [[] [] [] [] [] [] [] []]; vm_compute in Hc;
    try discriminate; try reflexivity.
  destruct r as [|c' r]; [reflexivity |]. simpl in Hr.
  apply andb_true_iff in Hr as [Hc' _].
  destruct c' as [[] [] [] [] [] [] [] []]; vm_compute in Hc';
    try discriminate; reflexivity.
Qed.

(** [parseInt] reads a non-empty string of digits as a number that is not
    negative. *)
Lemma parseInt_digits (s : string) :
  s ≠ EmptyString → all_chars is_digit s = true →
  ∃ n, parseInt s = Some n ∧ (0 ≤ n)%Z.
Proof.
  destruct s as [|c r]; [done |]. intros _ Hall.
  pose proof Hall as Hall'. simpl in Hall'.
  apply andb_true_iff in Hall' as [Hc Hr].
  unfold parseInt. simpl trimStart. rewrite (digit_not_space c Hc).
  rewrite (strip_sign_digit c r Hc), (strip_hex_prefix_digits _ Hall).
  simpl. destruct (radix_digit_decimal c Hc) as (d & -> & Hd).
  destruct (digits_prefix_digits r (0 * 10 + d)%Z Hr) as (n & -> & Hn); [lia |].
  exists n. split; [f_equal; lia | done].
Qed.

(** In every state the form can reach, validation never answers
    'Experience must be 0 or greater': the experience field holds only
    digits, so with an employment status chosen its slot is empty exactly
    when the field is not empty, and otherwise holds 'Experience is
    required'. *)
Theorem reachable_experience_errors (user_email : option string) (s : FormState)
    (Hreach : reachable user_email s) :
  validateForm_errors (formData s) !! "experience"
    ≠ Some (Some "Experience must be 0 or greater")
  ∧ (employmentStatus (formData s) ≠ EmptyString →
     (validateForm_errors (formData s) !! "experience" = None
      ↔ experience (formData s) ≠ EmptyString)
     ∧ (experience (formData s) = EmptyString →
        validateForm_errors (formData s) !! "experience"
        = Some (Some "Experience is required"))).
Proof.
  destruct (typed_draft_reachable _ _ Hreach) as [(_ & _ & _ & Hx & _) _].
  set (fd := formData s) in *.
  assert (experience fd = EmptyString →
          check_experience fd ∅ !! "experience"
          = Some (Some "Experience is required")) as Hempty.
  { intros E. unfold check_experience. rewrite E. simpl.
    apply lookup_set_error_eq. }
  assert (experience fd ≠ EmptyString →
          check_experience fd ∅ !! "experience" = None) as Hfull.
  { intros E. destruct (parseInt_digits _ E Hx) as (n & Hp & Hn).
    unfold check_experience. rewrite Hp. simpl.
    assert (trimStart (experience fd) ≠ EmptyString) as Ht
      by (by apply trimStart_digits).
    rewrite <- trim_empty in Ht. apply truthy_true in Ht. rewrite Ht. simpl.
    assert ((n <? 0)%Z = false) as -> by (apply Z.ltb_ge; lia). done. }
  rewrite experience_slot. unfold check_employmentStatus. split.
  - destruct (truthy (employmentStatus fd)); simpl.
    + destruct (decide (experience fd = EmptyString)) as [E | E].
      * rewrite (Hempty E). discriminate.
      * rewrite (Hfull E). discriminate.
    + rewrite lookup_set_error_eq. discriminate.
  - intros Hst%truthy_true. rewrite Hst. simpl. split; [| exact Hempty].
    destruct (decide (experience fd = EmptyString)) as [E | E].
    + rewrite (Hempty E). split; [discriminate | done].
    + rewrite (Hfull E). done.
Qed.

Lemma reachable_experience_errors_witness :
  let e := {| name := "experience"; value := "-3.5"; type := "text";
              checked := false |} in
  let s := handleInputChange e (initialFormState None) in
  experience (formData s) = "35"
  ∧ validateForm_errors (formData s) !! "experience"
    ≠ Some (Some "Experience must be 0 or greater").
Proof.
  intros e s. split; [reflexivity |].
  apply (reachable_experience_errors None s).
  apply reach_change; [apply reach_initial | reflexivity].
Defined.

(** In every state the form can reach, validation answers 'Full name
    must contain only letters, spaces, hyphens, and apostrophes' exactly
    when the trimmed name is a single character: the input handler has
    already removed every other character, so only the length check of
    [validateFullName] can fail. *)
Theorem reachable_fullName_errors (user_email : option string) (s : FormState)
    (Hreach : reachable user_email s) :
  validateForm_errors (formData s) !! "fullName"
    = Some (Some "Full name must contain only letters, spaces, hyphens, and apostrophes")
  ↔ String.length (trim (fullName (formData s))) = 1.
Proof.
  destruct (typed_draft_reachable _ _ Hreach) as [(Hn & _) _].
  set (fd := formData s) in *.
  unfold validateForm_errors. cbv zeta. peel_frames. unfold check_fullName.
  destruct (trim (fullName fd)) as [|c r] eqn:Ht; simpl.
  - rewrite lookup_set_error_eq. split; [discriminate | lia].
  - unfold validateFullName, nameRegex.
    rewrite test_plus_Class, Ht.
    assert (all_chars name_char (String c r) = true) as ->
      by (rewrite <- Ht; by apply all_chars_trim).
    simpl. destruct r as [|c' r]; simpl.
    + by rewrite lookup_set_error_eq.
    + rewrite lookup_empty. split; [discriminate | lia].
Qed.

Lemma reachable_fullName_errors_witness :
  let e := {| name := "fullName"; value := " J7 "; type := "text";
              checked := false |} in
  let s := handleInputChange e (initialFormState None) in
  fullName (formData s) = " J "
  ∧ validateForm_errors (formData s) !! "fullName"
    = Some (Some "Full name must contain only letters, spaces, hyphens, and apostrophes").
Proof.
  intros e s. split; [reflexivity |].
  apply (reachable_fullName_errors None s).
  - apply reach_change; [apply reach_initial | reflexivity].
  - reflexivity.
Defined.

(** *** Keys of the error object *)

Lemma error_keys_reachable (user_email : option string) (s : FormState)
    (k : string) :
  reachable user_email s → errors s !! k ≠ None → k ∈ error_keys.
Proof.
  induction 1 as [|e s _ IH _|s _ IH|s _ IH]; simpl.
  - by rewrite lookup_empty.
  - unfold handleInputChange_errors.
    destruct (truthy_opt (prop (errors s) (name e))) eqn:Ht; [| exact IH].
    destruct (decide (name e = k)) as [<- | Hne].
    + intros _. apply IH. unfold prop in Ht.
      by destruct (errors s !! name e).
    + by rewrite lookup_insert_ne.
  - unfold handleSubmit, validateForm. simpl. intros Hk.
    destruct (decide (k ∈ error_keys)); [done |].
    by destruct Hk; apply validateForm_errors_keys.
  - by rewrite lookup_empty.
Qed.

Lemma employmentStatus_not_error_key : "employmentStatus" ∉ error_keys.
Proof.
  unfold error_keys. intros Hin.
  repeat (apply elem_of_cons in Hin as [Hin | Hin]; [discriminate |]).
  by apply elem_of_nil in Hin.
Qed.

(** In every state the form can reach, the error object has no key
    outside the seven the [FormErrors] interface declares; in particular
    it never has an [employmentStatus] key. *)
Theorem reachable_error_keys (user_email : option string) (s : FormState)
    (k : string)
    (Hreach : reachable user_email s) (Hkey : errors s !! k ≠ None) :
  k ∈ error_keys ∧ k ≠ "employmentStatus".
Proof.
  pose proof (error_keys_reachable _ _ _ Hreach Hkey) as Hin.
  split; [exact Hin |]. intros ->.
  by apply employmentStatus_not_error_key.
Qed.

Lemma reachable_error_keys_witness :
  let s := handleSubmit (initialFormState None) in
  errors s !! "experience" = Some (Some "Please select your employment status")
  ∧ "experience" ∈ error_keys.
Proof.
  intros s. split; [vm_compute; reflexivity |].
  apply (reachable_error_keys None s "experience").
  - apply reach_submit, reach_initial.
  - vm_compute. discriminate.
Defined.

(** Choosing an employment status stores the choice and leaves the error
    object exactly as it was.  So after a submission with the status
    unset, choosing a status does not take away 'Please select your
    employment status': the message sits in the [experience] slot, which
    only a change of the experience field clears. *)
Theorem status_choice_keeps_errors (user_email : option string) (s : FormState)
    (e : ChangeEvent)
    (Hreach : reachable user_email s)
    (Hname : name e = "employmentStatus") (Htype : type e ≠ "checkbox") :
  employmentStatus (formData (handleInputChange e s)) = value e
  ∧ errors (handleInputChange e s) = errors s
  ∧ (employmentStatus (formData s) = EmptyString →
     prop (errors (handleInputChange e (handleSubmit s))) "experience"
     = Some "Please select your employment status").
Proof.
  assert (∀ s', reachable user_email s' →
                handleInputChange_errors e (errors s') = errors s') as Hkeep.
  { intros s' Hs'. unfold handleInputChange_errors, prop. rewrite Hname.
    destruct (errors s' !! "employmentStatus") as [v|] eqn:Hlk; [| done].
    assert (errors s' !! "employmentStatus" ≠ None) as Hk by congruence.
    destruct employmentStatus_not_error_key.
    by apply (error_keys_reachable _ _ _ Hs' Hk). }
  split; [| split].
  - simpl. unfold handleInputChange_formData.
    apply String.eqb_neq in Htype. rewrite Htype, Hname. reflexivity.
  - simpl. by apply Hkeep.
  - intros Hunset.
    change (errors (handleInputChange e (handleSubmit s)))
      with (handleInputChange_errors e (errors (handleSubmit s))).
    rewrite (Hkeep (handleSubmit s)) by (by apply reach_submit).
    unfold handleSubmit, validateForm, prop. simpl.
    rewrite experience_slot. unfold check_employmentStatus.
    rewrite Hunset. simpl. by rewrite lookup_set_error_eq.
Qed.

Lemma status_choice_keeps_errors_witness :
  let e := {| name := "employmentStatus"; value := "no"; type := "radio";
              checked := true |} in
  let s := handleInputChange e (handleSubmit (initialFormState None)) in
  employmentStatus (formData s) = "no"
  ∧ prop (errors s) "experience" = Some "Please select your employment status".
Proof.
  intros e s.
  destruct (status_choice_keeps_errors None (initialFormState None) e)
    as (_ & _ & H).
  - apply reach_initial.
  - reflexivity.
  - discriminate.
  - split; [reflexivity |]. apply H. reflexivity.
Defined.

(** *** One field at a time *)

(** A change event alters no field of the draft other than the one its
    input is named after, and neither the submitting nor the submitted
    flag. *)
Theorem input_change_touches_one_field (e : ChangeEvent) (s : FormState) :
  let s' := handleInputChange e s in
  (name e ≠ "fullName" → fullName (formData s') = fullName (formData s))
  ∧ (name e ≠ "email" → email (formData s') = email (formData s))
  ∧ (name e ≠ "phone" → phone (formData s') = phone (formData s))
  ∧ (name e ≠ "experience" → experience (formData s') = experience (formData s))
  ∧ (name e ≠ "employmentStatus" →
     employmentStatus (formData s') = employmentStatus (formData s))
  ∧ (name e ≠ "currentCompany" →
     currentCompany (formData s') = currentCompany (formData s))
  ∧ (name e ≠ "skills" → skills (formData s') = skills (formData s))
  ∧ (name e ≠ "declaration" → declaration (formData s') = declaration (formData s))
  ∧ isSubmitting s' = isSubmitting s
  ∧ isSubmitted s' = isSubmitted s.
Proof.
  cbv zeta. simpl. unfold handleInputChange_formData.
  repeat split; try done; intros Hne%String.eqb_neq;
    repeat case_match; cbn -[slice0 toggle_skill];
    repeat match goal with
      | H : _ && _ = true |- _ => apply andb_true_iff in H as [? ?]
      | H : (_ =? _)%string = _ |- _ => rewrite H
      end; try done; congruence.
Qed.

Lemma input_change_touches_one_field_witness :
  let e := {| name := "email"; value := "ann@example.com"; type := "email";
              checked := false |} in
  let s := handleSubmit (initialFormState None) in
  email (formData (handleInputChange e s)) = "ann@example.com"
  ∧ phone (formData (handleInputChange e s)) = phone (formData s).
Proof.
  intros e s. split; [reflexivity |].
  destruct (input_change_touches_one_field e s) as (_ & _ & H & _).
  apply H. discriminate.
Defined.

(** *** A fresh draft *)

(** A draft as the component starts with, or as 'Submit Another
    Application' leaves it, cannot be submitted at once: [handleSubmit]
    leaves it unsubmitted and as it was, with 'Full name is required'
    among the errors. *)
Theorem fresh_draft_is_rejected (user_email : option string) (s : FormState) :
  let s1 := handleSubmit (initialFormState user_email) in
  let s2 := handleSubmit (submitAnother user_email s) in
  (isSubmitted s1 = false
   ∧ formData s1 = initialFormData user_email
   ∧ errors s1 !! "fullName" = Some (Some "Full name is required"))
  ∧ (isSubmitted s2 = false
     ∧ formData s2 = initialFormData user_email
     ∧ errors s2 !! "fullName" = Some (Some "Full name is required")).
Proof.
  assert (validateForm_errors (initialFormData user_email) !! "fullName"
          = Some (Some "Full name is required")) as Hslot.
  { unfold validateForm_errors. cbv zeta. peel_frames.
    unfold check_fullName. simpl. apply lookup_set_error_eq. }
  assert ((size (validateForm_errors (initialFormData user_email)) =? 0)%nat
          = false) as Hsize.
  { apply Nat.eqb_neq. intros E%map_size_empty_iff.
    rewrite E, lookup_empty in Hslot. discriminate. }
  cbv zeta. unfold handleSubmit, validateForm. simpl. rewrite Hsize.
  repeat split; exact Hslot.
Qed.

(** *** The company rule *)

(** Validation asks for a company name only of the employed: the
    [currentCompany] slot holds 'Current company name is required' when
    the status is yes and the company is blank, and is empty in every
    other case, whatever the company field holds. *)
Theorem currentCompany_required_iff (fd : FormData) :
  (employmentStatus fd = "yes" ∧ trim (currentCompany fd) = EmptyString →
   validateForm_errors fd !! "currentCompany"
   = Some (Some "Current company name is required"))
  ∧ (employmentStatus fd ≠ "yes" ∨ trim (currentCompany fd) ≠ EmptyString →
     validateForm_errors fd !! "currentCompany" = None).
Proof.
  split.
  - intros [Hyes Hblank].
    unfold validateForm_errors. cbv zeta. peel_frames.
    unfold check_currentCompany. rewrite Hyes, Hblank. simpl.
    apply lookup_set_error_eq.
  - intros H. apply currentCompany_slot_None. intros Hyes.
    destruct H as [H | H]; done.
Qed.

Lemma currentCompany_required_iff_witness :
  let fd := {| fullName := "Ann Lee"; email := "ann@example.com";
               phone := "1234567890"; experience := "5";
               employmentStatus := "no"; currentCompany := EmptyString;
               skills := ["SQL"]; declaration := true |} in
  validateForm_errors fd !! "currentCompany" = None.
Proof.
  intros fd. destruct (currentCompany_required_iff fd) as [_ H].
  apply H. left. discriminate.
Defined.

End FormMore.
